(** * wavesense: the counter test harness [sim_main.cpp]

    A shallow embedding of the scenario execution engine of
    [sim_main.cpp]: the clock and reset sequencing primitives [tick] and
    [reset], the chain of string comparisons that selects a scenario in
    [main], and the simulated-time counter [main_time].

    The device under test ([Vcounter], generated by Verilator and not part
    of the harness) is a black box behind the interface [Dut]; the waveform
    recorder ([VerilatedVcdC]) is a sink.  What the harness does to both is
    kept in an event log, in program order. *)

From Stdlib Require Import ZArith List String Ascii Bool Lia.
Import ListNotations.
Local Open Scope Z_scope.

(** ** Data *)

(** [vluint64_t]: a 64-bit unsigned integer, arithmetic modulo [2^64]. *)
Definition vluint64_modulus : Z := 2 ^ 64.
Definition vluint64_wrap (x : Z) : Z := x mod vluint64_modulus.

(** The fields of a [Vcounter] object that the harness touches: the three
    input ports, and everything else ([core]: registers, outputs, the last
    clock level seen), which only [eval] reads and writes.  The harness
    writes only the literals 0 and 1 into the ports. *)
Record Vcounter (Core : Type) : Type := mkVcounter {
  clk : Z;
  rst : Z;
  en : Z;
  core : Core
}.
Arguments mkVcounter {Core} _ _ _ _.
Arguments clk {Core} _.
Arguments rst {Core} _.
Arguments en {Core} _.
Arguments core {Core} _.

(** The device contract: [top->eval()] updates the internal and output state
    from the current inputs and leaves the input ports alone;
    [new Vcounter] yields some initial object. *)
Class Dut : Type := {
  Core : Type;
  eval_core : Z -> Z -> Z -> Core -> Core;
  new_Vcounter : Vcounter Core
}.

(** A [VerilatedVcdC*]: null, or the recorder of the run. *)
Inductive VcdPtr : Type :=
| nullptr
| vcd.

Section Harness.
Context `{D : Dut}.

(** What the harness does, in program order.  [Dump t snap] is
    [tfp->dump(t)], [snap] being the signal values the recorder captures;
    [Open path ok] is [tfp->open(path)], [ok] telling whether the file
    could be opened for writing (the call returns nothing);
    [CallTick] and [CallReset] mark the entry of the two primitives. *)
Inductive Event : Type :=
| Trace (levels : Z)
| Open (path : string) (ok : bool)
| SetClk (v : Z)
| SetRst (v : Z)
| SetEn (v : Z)
| Eval
| Dump (t : Z) (snap : Vcounter Core)
| Cerr (msg : string)
| Close
| DeleteVcd
| Final
| DeleteTop
| CallTick
| CallReset (cycles : Z).

(** The state of the process: the device, the global [main_time], and the
    log of what happened so far. *)
Record Sim : Type := mkSim {
  top : Vcounter Core;
  main_time : Z;
  log : list Event
}.

(** ** Statements *)

Definition Stmt : Type := Sim -> Sim.

Definition seq_stmt (a b : Stmt) : Stmt := fun s => b (a s).
Notation "a ;; b" := (seq_stmt a b) (at level 61, left associativity).

Definition skip : Stmt := fun s => s.

Definition emit (e : Event) : Stmt :=
  fun s => mkSim (top s) (main_time s) (log s ++ [e]).

(** [top->clk = v;] *)
Definition set_clk (v : Z) : Stmt :=
  fun s =>
    let t := top s in
    mkSim (mkVcounter v (rst t) (en t) (core t)) (main_time s)
          (log s ++ [SetClk v]).

(** [top->rst = v;] *)
Definition set_rst (v : Z) : Stmt :=
  fun s =>
    let t := top s in
    mkSim (mkVcounter (clk t) v (en t) (core t)) (main_time s)
          (log s ++ [SetRst v]).

(** [top->en = v;] *)
Definition set_en (v : Z) : Stmt :=
  fun s =>
    let t := top s in
    mkSim (mkVcounter (clk t) (rst t) v (core t)) (main_time s)
          (log s ++ [SetEn v]).

(** [top->eval();] *)
Definition eval : Stmt :=
  fun s =>
    let t := top s in
    mkSim (mkVcounter (clk t) (rst t) (en t)
                      (eval_core (clk t) (rst t) (en t) (core t)))
          (main_time s) (log s ++ [Eval]).

(** [tfp->dump(main_time++);] the recorder gets the old value of
    [main_time]. *)
Definition dump_postinc : Stmt :=
  fun s =>
    mkSim (top s) (vluint64_wrap (main_time s + 1))
          (log s ++ [Dump (main_time s) (top s)]).

(** [if (tfp) st] *)
Definition if_tfp (tfp : VcdPtr) (st : Stmt) : Stmt :=
  match tfp with
  | nullptr => skip
  | vcd => st
  end.

(** [for (int i = 0; i < n; ++i) body]: [i] stays below [n], so [++i]
    never overflows; the loop is over after [max n 0] rounds, which is the
    fuel given. *)
Fixpoint for_from (fuel : nat) (i n : Z) (body : Stmt) (s : Sim) : Sim :=
  match fuel with
  | O => s
  | S fuel' =>
      if i <? n then for_from fuel' (i + 1) n body (body s) else s
  end.

Definition for_lt (n : Z) (body : Stmt) : Stmt :=
  for_from (Z.to_nat n) 0 n body.

(** ** The clock sequencer *)

Definition tick (tfp : VcdPtr) : Stmt :=
  emit CallTick ;;
  (* clk low *)
  set_clk 0 ;; eval ;; if_tfp tfp dump_postinc ;;
  (* clk high *)
  set_clk 1 ;; eval ;; if_tfp tfp dump_postinc.

Definition reset (tfp : VcdPtr) (cycles : Z) : Stmt :=
  emit (CallReset cycles) ;;
  set_rst 1 ;; eval ;; if_tfp tfp dump_postinc ;;
  for_lt cycles (tick tfp) ;;
  set_rst 0 ;; eval ;; if_tfp tfp dump_postinc.

(** ** [main] *)

Definition newline : string := String (ascii_of_nat 10) EmptyString.

Definition unknown_test_msg (test : string) : string :=
  ("Unknown test: " ++ test ++ newline)%string.

(** [argc > 1 ? std::string(argv[1]) : std::string("basic_counting")] *)
Definition test_of_argv (argv : list string) : string :=
  if 1 <? Z.of_nat (List.length argv)
  then nth 1 argv EmptyString
  else "basic_counting"%string.

(** [argc > 2 ? std::string(argv[2]) : std::string("waves.vcd")] *)
Definition vcd_path_of_argv (argv : list string) : string :=
  if 2 <? Z.of_nat (List.length argv)
  then nth 2 argv EmptyString
  else "waves.vcd"%string.

(** The process at its start: [main_time] is [0], nothing has happened. *)
Definition process_start : Sim := mkSim new_Vcounter 0 [].

(** The lines of [main] before the scenario: the recorder is made, attached
    and opened, then the "Init" line.  [tfp] is the fresh recorder, so its
    [dump] is not guarded.  The two calls before them,
    [Verilated::commandArgs(argc, argv)] and [Verilated::traceEverOn(true)],
    hand the arguments to the Verilator runtime and switch tracing on; what
    the runtime does with them is not part of the harness.  The model is of
    the runs in which they return, and starts after them. *)
Definition main_init (open_ok : bool) (vcd_path : string) : Stmt :=
  emit (Trace 99) ;;
  emit (Open vcd_path open_ok) ;;
  (* Init *)
  set_clk 0 ;; set_rst 0 ;; set_en 0 ;; eval ;; dump_postinc.

(** The chain of comparisons on [test]. *)
Definition main_dispatch (test : string) : Stmt :=
  let tfp := vcd in
  if String.eqb test "basic_counting" then
    reset tfp 1 ;;
    set_en 1 ;;
    for_lt 20 (tick tfp) ;;
    set_en 0 ;; for_lt 5 (tick tfp)
  else if String.eqb test "hold_when_disabled" then
    reset tfp 1 ;;
    set_en 1 ;; for_lt 5 (tick tfp) ;;
    set_en 0 ;; for_lt 10 (tick tfp) ;;
    set_en 1 ;; for_lt 5 (tick tfp)
  else if String.eqb test "reset_behavior" then
    set_en 1 ;; reset tfp 2 ;;
    for_lt 5 (tick tfp) ;;
    set_en 0 ;; reset tfp 1 ;;
    for_lt 5 (tick tfp)
  else if String.eqb test "rst_over_en_priority" then
    reset tfp 1 ;;
    set_en 1 ;; for_lt 5 (tick tfp) ;;
    set_rst 1 ;; for_lt 4 (tick tfp) ;;
    set_rst 0 ;; for_lt 6 (tick tfp)
  else if String.eqb test "wraparound" then
    reset tfp 1 ;;
    set_en 1 ;;
    for_lt 254 (tick tfp) ;;
    for_lt 4 (tick tfp) ;;
    set_en 0 ;; for_lt 4 (tick tfp)
  else if String.eqb test "mid_stream_reset" then
    reset tfp 1 ;;
    set_en 1 ;; for_lt 8 (tick tfp) ;;
    set_rst 1 ;; tick tfp ;;
    set_rst 0 ;; for_lt 8 (tick tfp)
  else
    emit (Cerr (unknown_test_msg test)).

(** The lines after the scenario. *)
Definition main_shutdown : Stmt :=
  emit Close ;; emit DeleteVcd ;; emit Final ;; emit DeleteTop.

(** [main]: the exit status and the final state.  [open_ok] is the answer of
    the file system to [tfp->open]; the program never looks at it. *)
Definition main (open_ok : bool) (argv : list string) : Z * Sim :=
  let test := test_of_argv argv in
  let vcd_path := vcd_path_of_argv argv in
  (0, (main_init open_ok vcd_path ;;
       main_dispatch test ;;
       main_shutdown) process_start).

End Harness.

Notation "a ;; b" := (seq_stmt a b) (at level 61, left associativity).

(** ** Reading the log *)

Section Observations.
Context `{D : Dut}.

Definition is_eval (e : Event) : bool :=
  match e with Eval => true | _ => false end.

Definition is_dump (e : Event) : bool :=
  match e with Dump _ _ => true | _ => false end.

Definition is_call_tick (e : Event) : bool :=
  match e with CallTick => true | _ => false end.

Definition is_call_reset (e : Event) : bool :=
  match e with CallReset _ => true | _ => false end.

Definition count (p : Event -> bool) (l : list Event) : nat :=
  List.length (filter p l).

(** The snapshots the recorder was given, with their times, in order. *)
Definition dumps (l : list Event) : list (Z * Vcounter Core) :=
  flat_map (fun e => match e with Dump t v => [(t, v)] | _ => [] end) l.

Definition dump_times (l : list Event) : list Z := map fst (dumps l).

(** The levels written to [clk], in order. *)
Definition clk_writes (l : list Event) : list Z :=
  flat_map (fun e => match e with SetClk v => [v] | _ => [] end) l.

(** Edges of a wire that holds [prev] and is then written [ws]. *)
Fixpoint rising_edges (prev : Z) (ws : list Z) : nat :=
  match ws with
  | [] => O
  | w :: ws' =>
      let here := if (prev =? 0) && negb (w =? 0) then 1%nat else O in
      (here + rising_edges w ws')%nat
  end.

Fixpoint falling_edges (prev : Z) (ws : list Z) : nat :=
  match ws with
  | [] => O
  | w :: ws' =>
      let here := if negb (prev =? 0) && (w =? 0) then 1%nat else O in
      (here + falling_edges w ws')%nat
  end.

(** The level [clk] holds each time [tick] is entered, [c] being the level
    before the first event of [l]. *)
Fixpoint clk_at_ticks (c : Z) (l : list Event) : list Z :=
  match l with
  | [] => []
  | SetClk v :: l' => clk_at_ticks v l'
  | CallTick :: l' => c :: clk_at_ticks c l'
  | _ :: l' => clk_at_ticks c l'
  end.

(** The device after [clk = 0; eval()], after [clk = 1; eval()] and after
    [rst = r; eval()]. *)
Definition low_phase (v : Vcounter Core) : Vcounter Core :=
  mkVcounter 0 (rst v) (en v) (eval_core 0 (rst v) (en v) (core v)).

Definition high_phase (v : Vcounter Core) : Vcounter Core :=
  mkVcounter 1 (rst v) (en v) (eval_core 1 (rst v) (en v) (core v)).

Definition reset_phase (r : Z) (v : Vcounter Core) : Vcounter Core :=
  mkVcounter (clk v) r (en v) (eval_core (clk v) r (en v) (core v)).

(** [0; 1; ...; n-1] *)
Definition times_upto (n : nat) : list Z := map Z.of_nat (seq 0 n).

(** [body], [n] times in a row. *)
Fixpoint repeat_stmt (n : nat) (body : Stmt) : Stmt :=
  match n with
  | O => skip
  | S k => body ;; repeat_stmt k body
  end.

(** ** Scenarios as the specification words them

    A scenario is an identifier mapped to an ordered sequence of primitive
    operations [setInput(name, value)], [tick(count)], [reset(cycles)];
    the table below is the one of the built-in scenarios, entry by entry. *)

Inductive Port : Type := port_rst | port_en.

Inductive Op : Type :=
| SetInput (p : Port) (v : Z)
| TickTimes (n : nat)
| ResetFor (cycles : Z).

Definition Scenario : Type := list Op.

Definition spec_table : list (string * Scenario) :=
  [ ("basic_counting"%string,
     [ResetFor 1; SetInput port_en 1; TickTimes 20;
      SetInput port_en 0; TickTimes 5]);
    ("hold_when_disabled"%string,
     [ResetFor 1; SetInput port_en 1; TickTimes 5;
      SetInput port_en 0; TickTimes 10; SetInput port_en 1; TickTimes 5]);
    ("reset_behavior"%string,
     [SetInput port_en 1; ResetFor 2; TickTimes 5;
      SetInput port_en 0; ResetFor 1; TickTimes 5]);
    ("rst_over_en_priority"%string,
     [ResetFor 1; SetInput port_en 1; TickTimes 5;
      SetInput port_rst 1; TickTimes 4; SetInput port_rst 0; TickTimes 6]);
    ("wraparound"%string,
     [ResetFor 1; SetInput port_en 1; TickTimes 254; TickTimes 4;
      SetInput port_en 0; TickTimes 4]);
    ("mid_stream_reset"%string,
     [ResetFor 1; SetInput port_en 1; TickTimes 8;
      SetInput port_rst 1; TickTimes 1; SetInput port_rst 0; TickTimes 8])
  ].

Definition builtin_names : list string := map fst spec_table.

(** Exact match of the name against the table. *)
Fixpoint spec_lookup (name : string) (tbl : list (string * Scenario))
  : option Scenario :=
  match tbl with
  | [] => None
  | (n, sc) :: tbl' => if String.eqb name n then Some sc else spec_lookup name tbl'
  end.

Definition spec_run_op (tfp : VcdPtr) (op : Op) : Stmt :=
  match op with
  | SetInput port_rst v => set_rst v
  | SetInput port_en v => set_en v
  | TickTimes n => repeat_stmt n (tick tfp)
  | ResetFor cycles => reset tfp cycles
  end.

Fixpoint spec_run (tfp : VcdPtr) (sc : Scenario) : Stmt :=
  match sc with
  | [] => skip
  | op :: sc' => spec_run_op tfp op ;; spec_run tfp sc'
  end.

(** Calls of [tick] and of [reset] that a scenario makes, the ticks inside
    a reset counted. *)
Definition op_ticks (op : Op) : nat :=
  match op with
  | SetInput _ _ => O
  | TickTimes n => n
  | ResetFor cycles => Z.to_nat cycles
  end.

Definition op_resets (op : Op) : nat :=
  match op with ResetFor _ => 1%nat | _ => O end.

Definition scenario_ticks (sc : Scenario) : nat :=
  fold_right (fun op acc => (op_ticks op + acc)%nat) O sc.

Definition scenario_resets (sc : Scenario) : nat :=
  fold_right (fun op acc => (op_resets op + acc)%nat) O sc.

(** A statement that only appends to the log. *)
Definition grows (st : Stmt) : Prop :=
  forall s, exists d, log (st s) = log s ++ d.

(** Snapshots per [tick], by recorder pointer. *)
Definition dumps_per_tick (tfp : VcdPtr) : nat :=
  match tfp with nullptr => O | vcd => 2%nat end.

(** [0; 1; ...; n-1], each reduced modulo [2^64]. *)
Definition wrapped_times (n : nat) : list Z :=
  map (fun k => vluint64_wrap (Z.of_nat k)) (seq 0 n).

(** [main_time] is the number of snapshots so far, as a [vluint64_t]. *)
Definition clock_inv (s : Sim) : Prop :=
  main_time s = vluint64_wrap (Z.of_nat (count is_dump (log s))).

(** Moreover the recorder got the times [0, 1, 2, ...] in this order. *)
Definition time_inv (s : Sim) : Prop :=
  clock_inv s /\ dump_times (log s) = wrapped_times (count is_dump (log s)).

Definition keeps (I : Sim -> Prop) (st : Stmt) : Prop :=
  forall s, I s -> I (st s).

(** An invariant that every primitive statement of the harness keeps. *)
Record stable (I : Sim -> Prop) : Prop := mkStable {
  stable_emit : forall e, is_dump e = false -> keeps I (emit e);
  stable_set_clk : forall v, keeps I (set_clk v);
  stable_set_rst : forall v, keeps I (set_rst v);
  stable_set_en : forall v, keeps I (set_en v);
  stable_eval : keeps I eval;
  stable_dump : keeps I dump_postinc
}.

(** A statement that adds [c] events of the kind [p] to the log. *)
Definition adds (p : Event -> bool) (st : Stmt) (c : nat) : Prop :=
  forall s, count p (log (st s)) = (count p (log s) + c)%nat.

Definition hit (p : Event -> bool) (e : Event) : nat :=
  if p e then 1%nat else O.

Definition sum_ops (f : Op -> nat) (sc : Scenario) : nat :=
  fold_right (fun op acc => (f op + acc)%nat) O sc.

(** A statement that never reads the log: from a device and a time it
    yields a device, a time and the events to append. *)
Definition log_blind (st : Stmt) : Prop :=
  forall t m, exists t' m' d, forall l, st (mkSim t m l) = mkSim t' m' (l ++ d).

(** [main] after [tfp->open(...)]: the "Init" line, the scenario, the
    shutdown. *)
Definition main_after_open (test : string) : Stmt :=
  set_clk 0 ;; set_rst 0 ;; set_en 0 ;; eval ;; dump_postinc ;;
  main_dispatch test ;;
  main_shutdown.

(** The level of [clk] after the events [l], [c] being the level before. *)
Definition clk_after (c : Z) (l : list Event) : Z :=
  fold_left (fun _ w => w) (clk_writes l) c.

(** The log and the device agree on [clk], and [tick] was entered with
    [clk] at 0 the first time and at 1 every time after. *)
Definition tick_levels_ok (c0 : Z) (s : Sim) : Prop :=
  clk_after c0 (log s) = clk (top s)
  /\ ((clk_at_ticks c0 (log s) = [] /\ clk (top s) = 0)
      \/ (exists k, clk_at_ticks c0 (log s) = 0 :: repeat 1 k
                    /\ clk (top s) = 1)).

(** An event that neither writes [clk] nor enters [tick]. *)
Definition off_clock (e : Event) : bool :=
  match e with SetClk _ | CallTick => false | _ => true end.

(** The operation after an assignment shows the assigned value in its first
    snapshot: a tick does for both ports, a reset does for [en] only (it
    writes [rst] itself). *)
Definition observes (p : Port) (next : option Op) : bool :=
  match p, next with
  | _, Some (TickTimes (S _)) => true
  | port_en, Some (ResetFor _) => true
  | _, _ => false
  end.

Fixpoint assignments_observed (sc : Scenario) : bool :=
  match sc with
  | [] => true
  | SetInput p _ :: sc' => observes p (hd_error sc') && assignments_observed sc'
  | _ :: sc' => assignments_observed sc'
  end.

End Observations.

(** ** A device to run the harness on

    Modelled from the spec: the device under test itself ([Vcounter.h] and
    the circuit behind it are not among the sources).  A free-running
    counter with clock, synchronous reset and enable inputs: on a rising
    edge of [clk] it goes to its reset value when [rst] is set, else counts
    up by one modulo 256 when [en] is set, else holds; reset takes priority
    over enable. *)

Record Counter8 : Type := mkCounter8 {
  count_reg : Z;
  last_clk : Z
}.

Definition counter8_eval (c r e : Z) (st : Counter8) : Counter8 :=
  if (last_clk st =? 0) && negb (c =? 0) then
    mkCounter8
      (if negb (r =? 0) then 0
       else if negb (e =? 0) then (count_reg st + 1) mod 256
       else count_reg st)
      c
  else mkCounter8 (count_reg st) c.

Definition counter8 : Dut :=
  {| Core := Counter8;
     eval_core := counter8_eval;
     new_Vcounter := mkVcounter 0 0 0 (mkCounter8 0 0) |}.

(** The count shown by the last snapshot of a log. *)
Definition last_count (l : list (@Event counter8)) : option Z :=
  match rev (@dumps counter8 l) with
  | [] => None
  | (_, v) :: _ => Some (count_reg (core v))
  end.

(** ** Shapes of logs and of device states *)

Section Shapes.
Context `{D : Dut}.

(** A statement that appends events [d] with [Q d], whatever the state. *)
Definition appends (Q : list Event -> Prop) (st : Stmt) : Prop :=
  forall s, exists d, log (st s) = log s ++ d /\ Q d.

(** A property of event lists that holds of what each piece of a scenario
    body appends: a call of [tick], the two ends of [reset], the
    assignments of 0 and 1 to [en] and [rst], the diagnostic. *)
Record scenario_closed (Q : list Event -> Prop) : Prop := mkClosed {
  closed_nil : Q [];
  closed_app : forall l1 l2, Q l1 -> Q l2 -> Q (l1 ++ l2);
  closed_tick :
    forall t v t' v',
      Q [CallTick; SetClk 0; Eval; Dump t v; SetClk 1; Eval; Dump t' v'];
  closed_assert : forall c t v, Q [CallReset c; SetRst 1; Eval; Dump t v];
  closed_deassert : forall t v, Q [SetRst 0; Eval; Dump t v];
  closed_en0 : Q [SetEn 0];
  closed_en1 : Q [SetEn 1];
  closed_rst0 : Q [SetRst 0];
  closed_rst1 : Q [SetRst 1];
  closed_cerr : forall msg, Q [Cerr msg]
}.

(** Every [Eval] is directly followed by a [Dump], and there is no other
    [Dump]. *)
Fixpoint alternating (l : list Event) : bool :=
  match l with
  | [] => true
  | Eval :: l' =>
      match l' with
      | Dump _ _ :: l'' => alternating l''
      | _ => false
      end
  | Dump _ _ :: _ => false
  | _ :: l' => alternating l'
  end.

(** The calls that set up and tear down the recorder and the device. *)
Definition is_lifecycle (e : Event) : bool :=
  match e with
  | Trace _ | Open _ _ | Close | DeleteVcd | Final | DeleteTop => true
  | _ => false
  end.

(** An assignment to a port writes 0 or 1. *)
Definition drives_bit (e : Event) : bool :=
  match e with
  | SetClk v | SetRst v | SetEn v => (v =? 0) || (v =? 1)
  | _ => true
  end.

(** Since the log was [base], [rst] and [en] have been [r] and [e]: in the
    device now and in every snapshot taken. *)
Definition frame_inv (base : list Event) (r e : Z) (s : Sim) : Prop :=
  exists d,
    log s = base ++ d
    /\ rst (top s) = r /\ en (top s) = e
    /\ Forall (fun x => rst (snd x) = r /\ en (snd x) = e) (dumps d).

(** One clock period on the device alone. *)
Definition tick_device (v : Vcounter Core) : Vcounter Core :=
  high_phase (low_phase v).

(** [reset] on the device alone. *)
Definition reset_device (cycles : Z) (v : Vcounter Core) : Vcounter Core :=
  reset_phase 0 (Nat.iter (Z.to_nat cycles) tick_device (reset_phase 1 v)).

End Shapes.

(** A device without a state: the three ports alone. *)
Definition port_dut : Dut :=
  {| Core := unit;
     eval_core := fun _ _ _ _ => tt;
     new_Vcounter := mkVcounter 0 0 0 tt |}.

(** A device and an event with everything but the ports forgotten. *)
Definition erase_core {C : Type} (v : Vcounter C) : Vcounter unit :=
  mkVcounter (clk v) (rst v) (en v) tt.

Definition erase_event `{D : Dut} (e : @Event D) : @Event port_dut :=
  match e with
  | Trace levels => @Trace port_dut levels
  | Open path ok => @Open port_dut path ok
  | SetClk v => @SetClk port_dut v
  | SetRst v => @SetRst port_dut v
  | SetEn v => @SetEn port_dut v
  | Eval => @Eval port_dut
  | Dump t snap => @Dump port_dut t (erase_core snap)
  | Cerr msg => @Cerr port_dut msg
  | Close => @Close port_dut
  | DeleteVcd => @DeleteVcd port_dut
  | Final => @Final port_dut
  | DeleteTop => @DeleteTop port_dut
  | CallTick => @CallTick port_dut
  | CallReset cycles => @CallReset port_dut cycles
  end.

(** Two runs, one on a device and one on the ports alone, that agree on
    the ports, the time and the log up to the device's state. *)
Definition same_stimulus `{D : Dut} (s : @Sim D) (u : @Sim port_dut) : Prop :=
  top u = erase_core (top s)
  /\ main_time u = main_time s
  /\ log u = map erase_event (log s).

Definition sim2 `{D : Dut} (a : @Stmt D) (a' : @Stmt port_dut) : Prop :=
  forall s u, same_stimulus s u -> same_stimulus (a s) (a' u).

(** * Properties *)

Section Proofs.
Context `{D : Dut}.

(** ** Lists of events *)

Lemma count_app (p : Event -> bool) (l1 l2 : list Event) :
  count p (l1 ++ l2) = (count p l1 + count p l2)%nat.
Proof. unfold count. now rewrite filter_app, length_app. Qed.

Lemma dumps_app (l1 l2 : list Event) : dumps (l1 ++ l2) = dumps l1 ++ dumps l2.
Proof. apply flat_map_app. Qed.

Lemma dump_times_app (l1 l2 : list Event) :
  dump_times (l1 ++ l2) = dump_times l1 ++ dump_times l2.
Proof. unfold dump_times. now rewrite dumps_app, map_app. Qed.

Lemma clk_writes_app (l1 l2 : list Event) :
  clk_writes (l1 ++ l2) = clk_writes l1 ++ clk_writes l2.
Proof. apply flat_map_app. Qed.

(** ** Loops *)

Lemma for_from_repeat (fuel : nat) (body : Stmt) :
  forall (i n : Z) (s : Sim),
    fuel = Z.to_nat (n - i) ->
    for_from fuel i n body s = repeat_stmt fuel body s.
Proof.
  induction fuel as [|k IH]; intros i n s Hk; simpl.
  - reflexivity.
  - destruct (Z.ltb_spec i n) as [Hlt|Hge].
    + unfold seq_stmt. apply IH. lia.
    + exfalso. lia.
Qed.

Lemma for_lt_repeat (n : Z) (body : Stmt) (s : Sim) :
  for_lt n body s = repeat_stmt (Z.to_nat n) body s.
Proof. unfold for_lt. apply for_from_repeat. now rewrite Z.sub_0_r. Qed.

Lemma repeat_stmt_succ (k : nat) (body : Stmt) (s : Sim) :
  repeat_stmt (S k) body s = repeat_stmt k body (body s).
Proof. reflexivity. Qed.

(** ** The clock sequencer, event by event *)

Lemma tick_vcd_eq (s : Sim) :
  tick vcd s =
  mkSim (high_phase (low_phase (top s)))
        (vluint64_wrap (vluint64_wrap (main_time s + 1) + 1))
        (log s ++ [CallTick;
                   SetClk 0; Eval; Dump (main_time s) (low_phase (top s));
                   SetClk 1; Eval;
                   Dump (vluint64_wrap (main_time s + 1))
                        (high_phase (low_phase (top s)))]).
Proof.
  unfold tick, seq_stmt, emit, set_clk, eval, if_tfp, dump_postinc; cbn.
  rewrite <- !app_assoc. reflexivity.
Qed.

Lemma tick_null_eq (s : Sim) :
  tick nullptr s =
  mkSim (high_phase (low_phase (top s))) (main_time s)
        (log s ++ [CallTick; SetClk 0; Eval; SetClk 1; Eval]).
Proof.
  unfold tick, seq_stmt, emit, set_clk, eval, if_tfp, skip; cbn.
  rewrite <- !app_assoc. reflexivity.
Qed.

(** C1: every call of [tick] with the recorder of the run writes [clk = 0],
    evaluates, records one snapshot at the current time, increments the
    time, then writes [clk = 1], evaluates, records, increments: two
    evaluations and two snapshots per call, the low one first. *)
Theorem C1_tick_sequence (s : Sim) :
  let t := main_time s in
  let lo := low_phase (top s) in
  let hi := high_phase lo in
  log (tick vcd s) =
    log s ++ [CallTick;
              SetClk 0; Eval; Dump t lo;
              SetClk 1; Eval; Dump (vluint64_wrap (t + 1)) hi]
  /\ main_time (tick vcd s) = vluint64_wrap (vluint64_wrap (t + 1) + 1)
  /\ top (tick vcd s) = hi
  /\ clk lo = 0 /\ clk hi = 1
  /\ count is_eval (log (tick vcd s)) = (count is_eval (log s) + 2)%nat
  /\ count is_dump (log (tick vcd s)) = (count is_dump (log s) + 2)%nat
  /\ count is_call_tick (log (tick vcd s))
     = (count is_call_tick (log s) + 1)%nat.
Proof.
  cbv zeta. rewrite tick_vcd_eq. cbn [log main_time top].
  rewrite !count_app. repeat split; reflexivity.
Qed.

(** ** The log only grows *)

Lemma grows_skip : grows skip.
Proof. intro s. exists []. now rewrite app_nil_r. Qed.

Lemma grows_emit (e : Event) : grows (emit e).
Proof. intro s. now exists [e]. Qed.

Lemma grows_set_clk (v : Z) : grows (set_clk v).
Proof. intro s. now exists [SetClk v]. Qed.

Lemma grows_set_rst (v : Z) : grows (set_rst v).
Proof. intro s. now exists [SetRst v]. Qed.

Lemma grows_set_en (v : Z) : grows (set_en v).
Proof. intro s. now exists [SetEn v]. Qed.

Lemma grows_eval : grows eval.
Proof. intro s. now exists [Eval]. Qed.

Lemma grows_dump_postinc : grows dump_postinc.
Proof. intro s. now exists [Dump (main_time s) (top s)]. Qed.

Lemma grows_seq (a b : Stmt) : grows a -> grows b -> grows (a ;; b).
Proof.
  intros Ha Hb s. unfold seq_stmt.
  destruct (Ha s) as [d1 E1]. destruct (Hb (a s)) as [d2 E2].
  exists (d1 ++ d2). now rewrite E2, E1, app_assoc.
Qed.

Lemma grows_if_tfp (tfp : VcdPtr) (st : Stmt) : grows st -> grows (if_tfp tfp st).
Proof. destruct tfp; [intros _; apply grows_skip | trivial]. Qed.

Lemma grows_repeat (k : nat) (body : Stmt) : grows body -> grows (repeat_stmt k body).
Proof.
  intro Hb. induction k as [|k IH]; simpl.
  - apply grows_skip.
  - now apply grows_seq.
Qed.

Lemma grows_for_lt (n : Z) (body : Stmt) : grows body -> grows (for_lt n body).
Proof.
  intros Hb s. rewrite for_lt_repeat. now apply grows_repeat.
Qed.

Create HintDb grows.

#[local] Hint Resolve grows_skip grows_emit grows_set_clk grows_set_rst
  grows_set_en grows_eval grows_dump_postinc grows_seq grows_if_tfp
  grows_repeat grows_for_lt : grows.

Lemma grows_tick (tfp : VcdPtr) : grows (tick tfp).
Proof. unfold tick. auto 20 with grows. Qed.

#[local] Hint Resolve grows_tick : grows.

Lemma grows_reset (tfp : VcdPtr) (cycles : Z) : grows (reset tfp cycles).
Proof. unfold reset. auto 20 with grows. Qed.

#[local] Hint Resolve grows_reset : grows.

Lemma grows_spec_run_op (tfp : VcdPtr) (op : Op) : grows (spec_run_op tfp op).
Proof. destruct op as [[|] v | n | cycles]; simpl; auto with grows. Qed.

Lemma grows_spec_run (tfp : VcdPtr) (sc : Scenario) : grows (spec_run tfp sc).
Proof.
  induction sc as [|op sc IH]; simpl.
  - apply grows_skip.
  - apply grows_seq; [apply grows_spec_run_op | exact IH].
Qed.

(** ** Counting over repeated statements *)

Lemma repeat_count (p : Event -> bool) (body : Stmt) (c : nat) :
  (forall s, count p (log (body s)) = (count p (log s) + c)%nat) ->
  forall k s,
    count p (log (repeat_stmt k body s)) = (count p (log s) + k * c)%nat.
Proof.
  intros Hb. induction k as [|k IH]; intro s.
  - simpl. unfold skip. lia.
  - rewrite repeat_stmt_succ, IH, Hb. lia.
Qed.

Lemma tick_count_eval (tfp : VcdPtr) (s : Sim) :
  count is_eval (log (tick tfp s)) = (count is_eval (log s) + 2)%nat.
Proof.
  destruct tfp; [rewrite tick_null_eq | rewrite tick_vcd_eq];
    cbn [log]; now rewrite count_app.
Qed.

Lemma tick_count_dump (tfp : VcdPtr) (s : Sim) :
  count is_dump (log (tick tfp s))
  = (count is_dump (log s) + dumps_per_tick tfp)%nat.
Proof.
  destruct tfp; [rewrite tick_null_eq | rewrite tick_vcd_eq];
    cbn [log]; now rewrite count_app.
Qed.

Lemma tick_count_call_tick (tfp : VcdPtr) (s : Sim) :
  count is_call_tick (log (tick tfp s))
  = (count is_call_tick (log s) + 1)%nat.
Proof.
  destruct tfp; [rewrite tick_null_eq | rewrite tick_vcd_eq];
    cbn [log]; now rewrite count_app.
Qed.

Lemma tick_count_call_reset (tfp : VcdPtr) (s : Sim) :
  count is_call_reset (log (tick tfp s))
  = (count is_call_reset (log s) + 0)%nat.
Proof.
  destruct tfp; [rewrite tick_null_eq | rewrite tick_vcd_eq];
    cbn [log]; now rewrite count_app.
Qed.

(** ** [reset] *)

Lemma reset_vcd_eq (cycles : Z) (s : Sim) :
  let v1 := reset_phase 1 (top s) in
  let s1 := mkSim v1 (vluint64_wrap (main_time s + 1))
                  (log s ++ [CallReset cycles; SetRst 1; Eval;
                             Dump (main_time s) v1]) in
  let s2 := repeat_stmt (Z.to_nat cycles) (tick vcd) s1 in
  let v3 := reset_phase 0 (top s2) in
  reset vcd cycles s =
  mkSim v3 (vluint64_wrap (main_time s2 + 1))
        (log s2 ++ [SetRst 0; Eval; Dump (main_time s2) v3]).
Proof.
  cbv zeta. unfold reset.
  change ((?a ;; ?b) s) with (b (a s)).
  rewrite <- for_lt_repeat.
  unfold seq_stmt, emit, set_rst, eval, if_tfp, dump_postinc; cbn.
  rewrite <- !app_assoc. reflexivity.
Qed.

(** C2: for [cycles >= 0], [reset] writes [rst = 1], evaluates, records one
    snapshot and increments the time; then calls [tick] [cycles] times (the
    events [mid]); then writes [rst = 0], evaluates, records and increments.
    With [cycles = 0] nothing lies between the two snapshots; in any case
    the [rst = 1] snapshot comes before every event of a tick. *)
Theorem C2_reset_sequence (cycles : Z) (s : Sim) (Hc : 0 <= cycles) :
  let t := main_time s in
  let v1 := reset_phase 1 (top s) in
  let s1 := mkSim v1 (vluint64_wrap (t + 1))
                  (log s ++ [CallReset cycles; SetRst 1; Eval; Dump t v1]) in
  let s2 := repeat_stmt (Z.to_nat cycles) (tick vcd) s1 in
  let v3 := reset_phase 0 (top s2) in
  exists mid : list Event,
    log s2 = log s1 ++ mid
    /\ log (reset vcd cycles s) =
         log s ++ [CallReset cycles; SetRst 1; Eval; Dump t v1]
               ++ mid
               ++ [SetRst 0; Eval; Dump (main_time s2) v3]
    /\ main_time (reset vcd cycles s) = vluint64_wrap (main_time s2 + 1)
    /\ top (reset vcd cycles s) = v3
    /\ rst v1 = 1 /\ rst v3 = 0
    /\ Z.of_nat (count is_call_tick mid) = cycles
    /\ Z.of_nat (count is_eval mid) = 2 * cycles
    /\ Z.of_nat (count is_dump mid) = 2 * cycles
    /\ count is_call_reset mid = O
    /\ Z.of_nat (count is_dump (log (reset vcd cycles s)))
       = Z.of_nat (count is_dump (log s)) + 2 + 2 * cycles
    /\ (cycles = 0 -> mid = []).
Proof.
  cbv zeta. rewrite reset_vcd_eq. cbv zeta. cbn [log main_time top].
  set (v1 := reset_phase 1 (top s)).
  set (s1 := mkSim v1 _ _).
  set (k := Z.to_nat cycles).
  destruct (grows_repeat k (tick vcd) (grows_tick vcd) s1) as [mid Hmid].
  exists mid.
  pose proof (repeat_count is_call_tick (tick vcd) 1 (tick_count_call_tick vcd) k s1) as Ht.
  pose proof (repeat_count is_eval (tick vcd) 2 (tick_count_eval vcd) k s1) as He.
  pose proof (repeat_count is_dump (tick vcd) 2 (tick_count_dump vcd) k s1) as Hd.
  pose proof (repeat_count is_call_reset (tick vcd) 0 (tick_count_call_reset vcd) k s1) as Hr.
  rewrite Hmid in Ht, He, Hd, Hr. rewrite count_app in Ht, He, Hd, Hr.
  repeat split; try reflexivity; try lia.
  - exact Hmid.
  - rewrite Hmid. subst s1. cbn [log]. rewrite <- !app_assoc. reflexivity.
  - rewrite Hmid. subst s1. cbn [log]. rewrite !count_app.
    change (count is_dump [CallReset cycles; SetRst 1; Eval; Dump (main_time s) v1]) with 1%nat.
    change (count is_dump [SetRst 0; Eval; Dump _ _]) with 1%nat. lia.
  - intro H0. assert (k = O) as Hk by lia.
    revert Hmid. rewrite Hk. simpl. unfold skip. intro Hmid.
    apply (app_inv_head (log s1)). now rewrite app_nil_r.
Qed.

(** ** Invariants kept by every primitive statement *)

Section Keeps.
Variable I : Sim -> Prop.

Lemma keeps_skip : keeps I skip.
Proof. intros s Hs. exact Hs. Qed.

Lemma keeps_seq (a b : Stmt) : keeps I a -> keeps I b -> keeps I (a ;; b).
Proof. intros Ha Hb s Hs. apply Hb, Ha, Hs. Qed.

Lemma keeps_if_tfp (tfp : VcdPtr) (st : Stmt) :
  keeps I st -> keeps I (if_tfp tfp st).
Proof. destruct tfp; [intros _; apply keeps_skip | trivial]. Qed.

Lemma keeps_repeat (k : nat) (body : Stmt) :
  keeps I body -> keeps I (repeat_stmt k body).
Proof.
  intro Hb. induction k as [|k IH]; simpl.
  - apply keeps_skip.
  - now apply keeps_seq.
Qed.

Lemma keeps_for_lt (n : Z) (body : Stmt) :
  keeps I body -> keeps I (for_lt n body).
Proof. intros Hb s Hs. rewrite for_lt_repeat. now apply keeps_repeat. Qed.

End Keeps.

Ltac keeps_steps :=
  repeat match goal with
         | |- keeps _ (_ ;; _) => apply keeps_seq
         | |- keeps _ (if_tfp _ _) => apply keeps_if_tfp
         | |- keeps _ (for_lt _ _) => apply keeps_for_lt
         | |- keeps _ (repeat_stmt _ _) => apply keeps_repeat
         | |- keeps _ skip => apply keeps_skip
         end.

Section Stable.
Variable I : Sim -> Prop.
Hypothesis HI : stable I.

Lemma keeps_tick (tfp : VcdPtr) : keeps I (tick tfp).
Proof.
  destruct HI. unfold tick. keeps_steps; auto.
Qed.

Lemma keeps_reset (tfp : VcdPtr) (cycles : Z) : keeps I (reset tfp cycles).
Proof.
  pose proof (keeps_tick tfp) as Ht. destruct HI. unfold reset.
  keeps_steps; auto.
Qed.

Lemma keeps_spec_run_op (tfp : VcdPtr) (op : Op) : keeps I (spec_run_op tfp op).
Proof.
  destruct op as [[|] v | n | cycles]; simpl.
  - apply (stable_set_rst I HI).
  - apply (stable_set_en I HI).
  - apply keeps_repeat, keeps_tick.
  - apply keeps_reset.
Qed.

Lemma keeps_spec_run (tfp : VcdPtr) (sc : Scenario) : keeps I (spec_run tfp sc).
Proof.
  induction sc as [|op sc IH]; simpl.
  - apply keeps_skip.
  - apply keeps_seq; [apply keeps_spec_run_op | exact IH].
Qed.

Lemma keeps_main_init (ok : bool) (path : string) : keeps I (main_init ok path).
Proof.
  destruct HI. unfold main_init. keeps_steps; auto.
Qed.

Lemma keeps_main_dispatch (test : string) : keeps I (main_dispatch test).
Proof.
  pose proof (keeps_tick vcd) as Ht.
  pose proof (keeps_reset vcd) as Hr.
  destruct HI. unfold main_dispatch. cbv zeta.
  repeat match goal with
         | |- keeps I (if ?b then _ else _) => destruct b
         end;
    keeps_steps; auto.
Qed.

Lemma keeps_main_shutdown : keeps I main_shutdown.
Proof.
  destruct HI. unfold main_shutdown. keeps_steps; auto.
Qed.

Lemma main_keeps (ok : bool) (argv : list string) :
  I process_start -> I (snd (main ok argv)).
Proof.
  intro H0. unfold main. cbn [snd].
  refine (keeps_seq I _ _ (keeps_seq I _ _ _ _) _ _ H0).
  - apply keeps_main_init.
  - apply keeps_main_dispatch.
  - apply keeps_main_shutdown.
Qed.

End Stable.

(** ** The time counter and the times given to the recorder *)

Lemma count_snoc_other (p : Event -> bool) (l : list Event) (e : Event) :
  p e = false -> count p (l ++ [e]) = count p l.
Proof.
  intro H. rewrite count_app. unfold count at 2. simpl. rewrite H. simpl. lia.
Qed.

Lemma count_snoc_hit (p : Event -> bool) (l : list Event) (e : Event) :
  p e = true -> count p (l ++ [e]) = S (count p l).
Proof.
  intro H. rewrite count_app. unfold count at 2. simpl. rewrite H. simpl. lia.
Qed.

Lemma dumps_snoc_other (l : list Event) (e : Event) :
  is_dump e = false -> dumps (l ++ [e]) = dumps l.
Proof.
  intro H. rewrite dumps_app. destruct e; try discriminate H;
    simpl; now rewrite app_nil_r.
Qed.

Lemma wrapped_times_succ (n : nat) :
  wrapped_times (S n) = wrapped_times n ++ [vluint64_wrap (Z.of_nat n)].
Proof. unfold wrapped_times. now rewrite seq_S, map_app. Qed.

Lemma wrap_succ (x : Z) :
  vluint64_wrap (vluint64_wrap x + 1) = vluint64_wrap (x + 1).
Proof. unfold vluint64_wrap. apply Zplus_mod_idemp_l. Qed.

Lemma wrap_small (x : Z) : 0 <= x < vluint64_modulus -> vluint64_wrap x = x.
Proof. apply Z.mod_small. Qed.

Lemma clock_inv_stable : stable clock_inv.
Proof.
  split; unfold keeps, clock_inv.
  - intros e He s Hs. cbn [emit log main_time]. now rewrite count_snoc_other.
  - intros v s Hs. cbn [set_clk log main_time]. now rewrite count_snoc_other.
  - intros v s Hs. cbn [set_rst log main_time]. now rewrite count_snoc_other.
  - intros v s Hs. cbn [set_en log main_time]. now rewrite count_snoc_other.
  - intros s Hs. cbn [eval log main_time]. now rewrite count_snoc_other.
  - intros s Hs. cbn [dump_postinc log main_time].
    rewrite count_snoc_hit by reflexivity.
    rewrite Hs, wrap_succ. f_equal. lia.
Qed.

Lemma time_inv_stable : stable time_inv.
Proof.
  pose proof clock_inv_stable as [Ce Cc Cr Cn Cv Cd].
  split; unfold keeps, time_inv.
  - intros e He s [Hc Ht]. split; [now apply Ce|].
    cbn [emit log]. unfold dump_times.
    now rewrite count_snoc_other, dumps_snoc_other.
  - intros v s [Hc Ht]. split; [now apply Cc|].
    cbn [set_clk log]. unfold dump_times.
    now rewrite count_snoc_other, dumps_snoc_other.
  - intros v s [Hc Ht]. split; [now apply Cr|].
    cbn [set_rst log]. unfold dump_times.
    now rewrite count_snoc_other, dumps_snoc_other.
  - intros v s [Hc Ht]. split; [now apply Cn|].
    cbn [set_en log]. unfold dump_times.
    now rewrite count_snoc_other, dumps_snoc_other.
  - intros s [Hc Ht]. split; [now apply Cv|].
    cbn [eval log]. unfold dump_times.
    now rewrite count_snoc_other, dumps_snoc_other.
  - intros s [Hc Ht]. split; [now apply Cd|].
    cbn [dump_postinc log].
    rewrite count_snoc_hit by reflexivity.
    rewrite dump_times_app, Ht, wrapped_times_succ.
    cbn. now rewrite Hc.
Qed.

Lemma time_inv_start : time_inv process_start.
Proof. split; reflexivity. Qed.

Lemma wrapped_times_small (n : nat) :
  Z.of_nat n <= vluint64_modulus -> wrapped_times n = times_upto n.
Proof.
  intro Hn. unfold wrapped_times, times_upto.
  apply map_ext_in. intros k Hk. apply in_seq in Hk.
  apply wrap_small. lia.
Qed.

(** ** How many events of a kind a statement adds *)

Section Adds.
Variable p : Event -> bool.

Lemma adds_eq (st : Stmt) (c c' : nat) : adds p st c -> c = c' -> adds p st c'.
Proof. now intros H <-. Qed.

Lemma adds_skip : adds p skip O.
Proof. intro s. unfold skip. lia. Qed.

Lemma adds_snoc (l : list Event) (e : Event) :
  count p (l ++ [e]) = (count p l + hit p e)%nat.
Proof.
  rewrite count_app. unfold count at 2, hit. simpl. now destruct (p e).
Qed.

Lemma adds_emit (e : Event) : adds p (emit e) (hit p e).
Proof. intro s. apply adds_snoc. Qed.

Lemma adds_set_clk (v : Z) : adds p (set_clk v) (hit p (SetClk v)).
Proof. intro s. apply adds_snoc. Qed.

Lemma adds_set_rst (v : Z) : adds p (set_rst v) (hit p (SetRst v)).
Proof. intro s. apply adds_snoc. Qed.

Lemma adds_set_en (v : Z) : adds p (set_en v) (hit p (SetEn v)).
Proof. intro s. apply adds_snoc. Qed.

Lemma adds_eval : adds p eval (hit p Eval).
Proof. intro s. apply adds_snoc. Qed.

Lemma adds_seq (a b : Stmt) (ca cb : nat) :
  adds p a ca -> adds p b cb -> adds p (a ;; b) (ca + cb).
Proof. intros Ha Hb s. unfold seq_stmt. rewrite Hb, Ha. lia. Qed.

Lemma adds_repeat (k : nat) (body : Stmt) (c : nat) :
  adds p body c -> adds p (repeat_stmt k body) (k * c).
Proof. intros Hb s. now apply repeat_count. Qed.

Lemma adds_for_lt (n : Z) (body : Stmt) (c : nat) :
  adds p body c -> adds p (for_lt n body) (Z.to_nat n * c).
Proof. intros Hb s. rewrite for_lt_repeat. now apply adds_repeat. Qed.

Lemma adds_spec_run (tfp : VcdPtr) (f : Op -> nat) :
  (forall op, adds p (spec_run_op tfp op) (f op)) ->
  forall sc, adds p (spec_run tfp sc) (sum_ops f sc).
Proof.
  intros Hop. induction sc as [|op sc IH]; simpl.
  - apply adds_skip.
  - apply adds_seq; [apply Hop | exact IH].
Qed.

End Adds.

Lemma adds_dump_postinc_other (p : Event -> bool) :
  (forall t v, p (Dump t v) = false) -> adds p dump_postinc O.
Proof.
  intros H s. cbn [dump_postinc log]. rewrite adds_snoc. unfold hit.
  now rewrite H.
Qed.

Lemma adds_dump_postinc_dump : adds is_dump dump_postinc 1.
Proof. intro s. cbn [dump_postinc log]. now rewrite adds_snoc. Qed.

Lemma adds_if_tfp_other (p : Event -> bool) (tfp : VcdPtr) :
  (forall t v, p (Dump t v) = false) -> adds p (if_tfp tfp dump_postinc) O.
Proof.
  intro H. destruct tfp; [apply adds_skip | now apply adds_dump_postinc_other].
Qed.

Lemma adds_if_tfp_dump (tfp : VcdPtr) :
  adds is_dump (if_tfp tfp dump_postinc)
       (match tfp with nullptr => O | vcd => 1 end).
Proof. destruct tfp; [apply adds_skip | apply adds_dump_postinc_dump]. Qed.

Ltac adds_steps :=
  repeat match goal with
         | |- adds _ (_ ;; _) _ => eapply adds_seq
         | |- adds _ (for_lt _ _) _ => eapply adds_for_lt
         | |- adds _ (repeat_stmt _ _) _ => eapply adds_repeat
         | |- adds _ (emit _) _ => eapply adds_emit
         | |- adds _ (set_clk _) _ => eapply adds_set_clk
         | |- adds _ (set_rst _) _ => eapply adds_set_rst
         | |- adds _ (set_en _) _ => eapply adds_set_en
         | |- adds _ eval _ => eapply adds_eval
         | |- adds is_dump (if_tfp _ dump_postinc) _ => eapply adds_if_tfp_dump
         | |- adds _ (if_tfp _ dump_postinc) _ =>
             eapply adds_if_tfp_other; intros; reflexivity
         | |- adds is_dump dump_postinc _ => eapply adds_dump_postinc_dump
         | |- adds _ dump_postinc _ =>
             eapply adds_dump_postinc_other; intros; reflexivity
         end.

Lemma adds_tick_eval (tfp : VcdPtr) : adds is_eval (tick tfp) 2.
Proof. intro s. apply tick_count_eval. Qed.

Lemma adds_tick_dump (tfp : VcdPtr) : adds is_dump (tick tfp) (dumps_per_tick tfp).
Proof. intro s. apply tick_count_dump. Qed.

Lemma adds_tick_call_tick (tfp : VcdPtr) : adds is_call_tick (tick tfp) 1.
Proof. intro s. apply tick_count_call_tick. Qed.

Lemma adds_tick_call_reset (tfp : VcdPtr) : adds is_call_reset (tick tfp) 0.
Proof. intro s. apply tick_count_call_reset. Qed.

Lemma adds_reset_eval (tfp : VcdPtr) (cycles : Z) :
  adds is_eval (reset tfp cycles) (2 + 2 * Z.to_nat cycles).
Proof.
  unfold reset. eapply adds_eq.
  - adds_steps. apply adds_tick_eval.
  - cbn [hit is_eval]. lia.
Qed.

Lemma adds_reset_dump (tfp : VcdPtr) (cycles : Z) :
  adds is_dump (reset tfp cycles)
       (dumps_per_tick tfp + Z.to_nat cycles * dumps_per_tick tfp).
Proof.
  unfold reset. eapply adds_eq.
  - adds_steps. apply adds_tick_dump.
  - cbn [hit is_dump]. destruct tfp; cbn [dumps_per_tick]; lia.
Qed.

Lemma adds_reset_call_tick (tfp : VcdPtr) (cycles : Z) :
  adds is_call_tick (reset tfp cycles) (Z.to_nat cycles).
Proof.
  unfold reset. eapply adds_eq.
  - adds_steps. apply adds_tick_call_tick.
  - cbn [hit is_call_tick]. lia.
Qed.

Lemma adds_reset_call_reset (tfp : VcdPtr) (cycles : Z) :
  adds is_call_reset (reset tfp cycles) 1.
Proof.
  unfold reset. eapply adds_eq.
  - adds_steps. apply adds_tick_call_reset.
  - cbn [hit is_call_reset]. lia.
Qed.

(** ** Counts over a scenario *)

Lemma adds_op_eval (tfp : VcdPtr) (op : Op) :
  adds is_eval (spec_run_op tfp op) (2 * op_ticks op + 2 * op_resets op).
Proof.
  destruct op as [[|] v | n | cycles]; cbn [spec_run_op op_ticks op_resets].
  - apply (adds_set_rst is_eval).
  - apply (adds_set_en is_eval).
  - eapply adds_eq; [apply adds_repeat, adds_tick_eval | lia].
  - eapply adds_eq; [apply adds_reset_eval | lia].
Qed.

Lemma adds_op_dump (tfp : VcdPtr) (op : Op) :
  adds is_dump (spec_run_op tfp op)
       (dumps_per_tick tfp * (op_ticks op + op_resets op)).
Proof.
  destruct op as [[|] v | n | cycles]; cbn [spec_run_op op_ticks op_resets].
  - eapply adds_eq; [apply (adds_set_rst is_dump) | cbn; lia].
  - eapply adds_eq; [apply (adds_set_en is_dump) | cbn; lia].
  - eapply adds_eq; [apply adds_repeat, adds_tick_dump | lia].
  - eapply adds_eq; [apply adds_reset_dump | lia].
Qed.

Lemma adds_op_call_tick (tfp : VcdPtr) (op : Op) :
  adds is_call_tick (spec_run_op tfp op) (op_ticks op).
Proof.
  destruct op as [[|] v | n | cycles]; cbn [spec_run_op op_ticks].
  - apply (adds_set_rst is_call_tick).
  - apply (adds_set_en is_call_tick).
  - eapply adds_eq; [apply adds_repeat, adds_tick_call_tick | lia].
  - apply adds_reset_call_tick.
Qed.

Lemma adds_op_call_reset (tfp : VcdPtr) (op : Op) :
  adds is_call_reset (spec_run_op tfp op) (op_resets op).
Proof.
  destruct op as [[|] v | n | cycles]; cbn [spec_run_op op_resets].
  - apply (adds_set_rst is_call_reset).
  - apply (adds_set_en is_call_reset).
  - eapply adds_eq; [apply adds_repeat, adds_tick_call_reset | lia].
  - apply adds_reset_call_reset.
Qed.

Lemma sum_ops_ticks (sc : Scenario) : sum_ops op_ticks sc = scenario_ticks sc.
Proof. reflexivity. Qed.

Lemma sum_ops_resets (sc : Scenario) : sum_ops op_resets sc = scenario_resets sc.
Proof. reflexivity. Qed.

Lemma sum_ops_evals (sc : Scenario) :
  sum_ops (fun op => 2 * op_ticks op + 2 * op_resets op)%nat sc
  = (2 * scenario_ticks sc + 2 * scenario_resets sc)%nat.
Proof.
  induction sc as [|op sc IH]; [reflexivity|].
  unfold sum_ops, scenario_ticks, scenario_resets in *. cbn [fold_right].
  rewrite IH. lia.
Qed.

Lemma sum_ops_dumps (d : nat) (sc : Scenario) :
  sum_ops (fun op => d * (op_ticks op + op_resets op))%nat sc
  = (d * (scenario_ticks sc + scenario_resets sc))%nat.
Proof.
  induction sc as [|op sc IH]; [cbn; lia|].
  unfold sum_ops, scenario_ticks, scenario_resets in *. cbn [fold_right].
  rewrite IH. lia.
Qed.

Lemma spec_run_evals (tfp : VcdPtr) (sc : Scenario) :
  adds is_eval (spec_run tfp sc)
       (2 * scenario_ticks sc + 2 * scenario_resets sc).
Proof.
  eapply adds_eq; [apply adds_spec_run, adds_op_eval | apply sum_ops_evals].
Qed.

Lemma spec_run_dumps (tfp : VcdPtr) (sc : Scenario) :
  adds is_dump (spec_run tfp sc)
       (dumps_per_tick tfp * (scenario_ticks sc + scenario_resets sc)).
Proof.
  eapply adds_eq; [apply adds_spec_run, adds_op_dump | apply sum_ops_dumps].
Qed.

Lemma spec_run_call_ticks (tfp : VcdPtr) (sc : Scenario) :
  adds is_call_tick (spec_run tfp sc) (scenario_ticks sc).
Proof. apply (adds_spec_run is_call_tick tfp op_ticks), adds_op_call_tick. Qed.

Lemma spec_run_call_resets (tfp : VcdPtr) (sc : Scenario) :
  adds is_call_reset (spec_run tfp sc) (scenario_resets sc).
Proof. apply (adds_spec_run is_call_reset tfp op_resets), adds_op_call_reset. Qed.

(** ** The dispatch of [main] against the table *)

Lemma spec_lookup_In (name : string) (tbl : list (string * Scenario)) (sc : Scenario) :
  spec_lookup name tbl = Some sc -> In (name, sc) tbl.
Proof.
  induction tbl as [|[n sc'] tbl IH]; simpl; [discriminate|].
  destruct (String.eqb_spec name n) as [->|Hne].
  - intro H. injection H as ->. now left.
  - intro H. right. now apply IH.
Qed.

Lemma spec_lookup_None (name : string) (tbl : list (string * Scenario)) :
  spec_lookup name tbl = None <-> ~ In name (map fst tbl).
Proof.
  induction tbl as [|[n sc'] tbl IH]; simpl.
  - tauto.
  - destruct (String.eqb_spec name n) as [->|Hne].
    + split; [discriminate | intro H; exfalso; apply H; now left].
    + rewrite IH. split.
      * intros H [E|E]; [now apply Hne | now apply H].
      * intros H E. apply H. now right.
Qed.

Lemma main_dispatch_script (test : string) (s : Sim) :
  main_dispatch test s =
  match spec_lookup test spec_table with
  | Some sc => spec_run vcd sc s
  | None => emit (Cerr (unknown_test_msg test)) s
  end.
Proof.
  cbv [main_dispatch spec_table spec_lookup].
  repeat match goal with
         | |- context [String.eqb test ?n] => destruct (String.eqb test n)
         end;
    cbv [spec_run spec_run_op seq_stmt skip]; rewrite ?for_lt_repeat;
    repeat match goal with
           | |- context [Z.to_nat ?z] =>
               let k := eval vm_compute in (Z.to_nat z) in
               change (Z.to_nat z) with k
           end;
    reflexivity.
Qed.

Lemma main_script (ok : bool) (argv : list string) :
  main ok argv =
  (0, main_shutdown
        (match spec_lookup (test_of_argv argv) spec_table with
         | Some sc => spec_run vcd sc
         | None => emit (Cerr (unknown_test_msg (test_of_argv argv)))
         end (main_init ok (vcd_path_of_argv argv) process_start))).
Proof.
  unfold main. f_equal.
  change ((?a ;; ?b ;; ?c) ?s) with (c (b (a s))).
  rewrite main_dispatch_script.
  now destruct (spec_lookup (test_of_argv argv) spec_table).
Qed.

Lemma adds_main_init_eval (ok : bool) (path : string) :
  adds is_eval (main_init ok path) 1.
Proof. unfold main_init. eapply adds_eq; [adds_steps | reflexivity]. Qed.

Lemma adds_main_init_dump (ok : bool) (path : string) :
  adds is_dump (main_init ok path) 1.
Proof. unfold main_init. eapply adds_eq; [adds_steps | reflexivity]. Qed.

Lemma adds_main_init_call_tick (ok : bool) (path : string) :
  adds is_call_tick (main_init ok path) 0.
Proof. unfold main_init. eapply adds_eq; [adds_steps | reflexivity]. Qed.

Lemma adds_main_init_call_reset (ok : bool) (path : string) :
  adds is_call_reset (main_init ok path) 0.
Proof. unfold main_init. eapply adds_eq; [adds_steps | reflexivity]. Qed.

Lemma adds_main_shutdown (p : Event -> bool) :
  p Close = false -> p DeleteVcd = false -> p Final = false ->
  p DeleteTop = false ->
  adds p main_shutdown 0.
Proof.
  intros H1 H2 H3 H4. unfold main_shutdown.
  eapply adds_eq; [adds_steps | unfold hit; now rewrite H1, H2, H3, H4].
Qed.

(** The counts of a whole run, by the scenario that the name selects. *)
Lemma main_counts (ok : bool) (argv : list string) :
  let l := log (snd (main ok argv)) in
  let sc := match spec_lookup (test_of_argv argv) spec_table with
            | Some sc => sc
            | None => []
            end in
  count is_dump l = (1 + 2 * (scenario_ticks sc + scenario_resets sc))%nat
  /\ count is_eval l = (1 + 2 * scenario_ticks sc + 2 * scenario_resets sc)%nat
  /\ count is_call_tick l = scenario_ticks sc
  /\ count is_call_reset l = scenario_resets sc.
Proof.
  cbv zeta. rewrite main_script. cbn [snd].
  set (s0 := main_init ok (vcd_path_of_argv argv) process_start).
  assert (H0 : count is_dump (log s0) = 1%nat
               /\ count is_eval (log s0) = 1%nat
               /\ count is_call_tick (log s0) = O
               /\ count is_call_reset (log s0) = O).
  { subst s0. rewrite adds_main_init_dump, adds_main_init_eval,
      adds_main_init_call_tick, adds_main_init_call_reset.
    repeat split; reflexivity. }
  destruct H0 as (Hd & He & Ht & Hr).
  rewrite !adds_main_shutdown by reflexivity.
  destruct (spec_lookup (test_of_argv argv) spec_table) as [sc|].
  - rewrite spec_run_dumps, spec_run_evals, spec_run_call_ticks,
      spec_run_call_resets, Hd, He, Ht, Hr.
    cbn [dumps_per_tick]. repeat split; lia.
  - rewrite !adds_emit, Hd, He, Ht, Hr. repeat split; reflexivity.
Qed.

Lemma spec_table_size (name : string) (sc : Scenario) :
  In (name, sc) spec_table ->
  (scenario_ticks sc + scenario_resets sc <= 264)%nat.
Proof.
  intro H. cbv [spec_table] in H. cbn [In] in H.
  repeat match goal with
         | H : _ \/ _ |- _ => destruct H as [H|H]
         end;
    try (injection H as <- <-; vm_compute; lia).
  contradiction.
Qed.

Lemma main_dump_count_small (ok : bool) (argv : list string) :
  (1 <= count is_dump (log (snd (main ok argv))) <= 529)%nat.
Proof.
  destruct (main_counts ok argv) as (Hd & _). rewrite Hd.
  destruct (spec_lookup (test_of_argv argv) spec_table) as [sc|] eqn:E.
  - apply spec_lookup_In, spec_table_size in E. lia.
  - cbn. lia.
Qed.

(** ** Command lines *)

Lemma test_of_argv_named (prog name : string) (rest : list string) :
  test_of_argv (prog :: name :: rest) = name.
Proof.
  unfold test_of_argv. cbn [List.length nth].
  destruct (Z.ltb_spec 1 (Z.of_nat (S (S (List.length rest))))); [reflexivity | lia].
Qed.

Lemma dumps_length (l : list Event) : List.length (dumps l) = count is_dump l.
Proof.
  induction l as [|e l IH]; [reflexivity|].
  change (e :: l) with ([e] ++ l). rewrite dumps_app, count_app, length_app, IH.
  now destruct e.
Qed.

Lemma dump_times_length (l : list Event) :
  List.length (dump_times l) = count is_dump l.
Proof. unfold dump_times. now rewrite length_map, dumps_length. Qed.

Lemma times_upto_nth (n k : nat) (t : Z) :
  nth_error (times_upto n) k = Some t -> t = Z.of_nat k.
Proof.
  intro H. assert (Hk : (k < n)%nat).
  { assert (Hn : nth_error (times_upto n) k <> None) by congruence.
    apply nth_error_Some in Hn. unfold times_upto in Hn.
    now rewrite length_map, length_seq in Hn. }
  apply (nth_error_nth _ _ 0) in H. rewrite <- H.
  unfold times_upto. change 0 with (Z.of_nat O).
  rewrite map_nth, seq_nth by exact Hk. reflexivity.
Qed.

(** C3: in every run, whatever the arguments (each built-in name, an unknown
    name, no name at all), the times given to the recorder are 0, 1, 2, ...
    without gap or repeat: the snapshot at position [k] (counting from 0,
    the baseline snapshot) is recorded at time [k], and later snapshots
    have larger times. *)
Theorem C3_times_consecutive (ok : bool) (argv : list string) :
  let ts := dump_times (log (snd (main ok argv))) in
  ts = times_upto (List.length ts)
  /\ (1 <= List.length ts)%nat
  /\ nth_error ts 0 = Some 0
  /\ (forall k t, nth_error ts k = Some t -> t = Z.of_nat k)
  /\ (forall i j ti tj,
         nth_error ts i = Some ti -> nth_error ts j = Some tj ->
         (i < j)%nat -> ti < tj).
Proof.
  cbv zeta.
  pose proof (main_keeps time_inv time_inv_stable ok argv time_inv_start)
    as [_ Ht].
  pose proof (main_dump_count_small ok argv) as Hn.
  rewrite dump_times_length.
  set (n := count is_dump (log (snd (main ok argv)))) in *.
  rewrite wrapped_times_small in Ht
    by (unfold vluint64_modulus; change (2 ^ 64) with 18446744073709551616; lia).
  rewrite Ht. repeat split.
  - lia.
  - destruct n as [|n]; [lia | reflexivity].
  - apply times_upto_nth.
  - intros i j ti tj Hi Hj Hij.
    apply times_upto_nth in Hi, Hj. lia.
Qed.

(** C4: in every run the number of recorded snapshots is twice the number of
    calls of [tick] (those made inside [reset] included), plus twice the
    number of calls of [reset], plus one for the baseline snapshot; this
    holds for each built-in scenario, and [basic_counting] records 55
    snapshots. *)
Theorem C4_snapshot_count :
  (forall (ok : bool) (argv : list string),
      let l := log (snd (main ok argv)) in
      count is_dump l
      = (2 * count is_call_tick l + 2 * count is_call_reset l + 1)%nat)
  /\ (forall (ok : bool) (prog : string) (rest : list string),
         let l := log (snd (main ok (prog :: "basic_counting"%string :: rest))) in
         count is_call_tick l = 26%nat
         /\ count is_call_reset l = 1%nat
         /\ count is_dump l = 55%nat).
Proof.
  split.
  - intros ok argv. cbv zeta.
    destruct (main_counts ok argv) as (Hd & _ & Ht & Hr).
    rewrite Hd, Ht, Hr. lia.
  - intros ok prog rest. cbv zeta.
    destruct (main_counts ok (prog :: "basic_counting"%string :: rest))
      as (Hd & _ & Ht & Hr).
    rewrite Hd, Ht, Hr, test_of_argv_named.
    repeat split; reflexivity.
Qed.

Lemma spec_lookup_table (name : string) (sc : Scenario) :
  In (name, sc) spec_table -> spec_lookup name spec_table = Some sc.
Proof.
  intro H. cbv [spec_table] in H. cbn [In] in H.
  repeat match goal with
         | H : _ \/ _ |- _ => destruct H as [H|H]
         end;
    try (injection H as <- <-; reflexivity).
  contradiction.
Qed.

(** C5: for each built-in name, [main] runs the script of the table, entry
    by entry, between the baseline initialization and the shutdown, and
    nothing else; so [wraparound] is [reset(1)], [en = 1], 254 ticks, 4
    ticks, [en = 0], 4 ticks. *)
Theorem C5_scenario_scripts (name : string) (sc : Scenario)
        (ok : bool) (prog : string) (rest : list string)
        (Hin : In (name, sc) spec_table) :
  let argv := prog :: name :: rest in
  let s0 := main_init ok (vcd_path_of_argv argv) process_start in
  (forall s, main_dispatch name s = spec_run vcd sc s)
  /\ main ok argv = (0, main_shutdown (spec_run vcd sc s0))
  /\ exists script_events : list Event,
       log (spec_run vcd sc s0) = log s0 ++ script_events
       /\ log (snd (main ok argv))
          = log s0 ++ script_events ++ [Close; DeleteVcd; Final; DeleteTop]
       /\ count is_call_tick script_events = scenario_ticks sc
       /\ count is_call_reset script_events = scenario_resets sc.
Proof.
  cbv zeta. pose proof (spec_lookup_table name sc Hin) as Hl.
  set (s0 := main_init ok _ process_start).
  assert (Hmain : main ok (prog :: name :: rest)
                  = (0, main_shutdown (spec_run vcd sc s0))).
  { rewrite main_script, test_of_argv_named, Hl. reflexivity. }
  split; [|split].
  - intro s. now rewrite main_dispatch_script, Hl.
  - exact Hmain.
  - destruct (grows_spec_run vcd sc s0) as [d Hd].
    exists d. rewrite Hmain. cbn [snd].
    pose proof (spec_run_call_ticks vcd sc s0) as Ht.
    pose proof (spec_run_call_resets vcd sc s0) as Hr.
    rewrite Hd, count_app in Ht, Hr.
    repeat split; try lia.
    + exact Hd.
    + unfold main_shutdown, seq_stmt, emit. cbn [log].
      rewrite Hd, <- !app_assoc. reflexivity.
Qed.

Lemma string_length_append (s1 s2 : string) :
  String.length (s1 ++ s2)%string
  = (String.length s1 + String.length s2)%nat.
Proof.
  induction s1 as [|ch s1 IH]; [reflexivity|].
  cbn [String.append String.length Nat.add]. now rewrite IH.
Qed.

(** C6: the name is compared exactly with the six built-in names; for every
    name that is none of them, [main] writes the diagnostic
    "Unknown test: ", the name and a newline to [std::cerr], does nothing to
    the device after the baseline initialization (no assignment, no
    evaluation, no snapshot), closes the recorder, finalizes the device and
    returns 0. *)
Theorem C6_unknown_scenario (ok : bool) (argv : list string)
        (Hunknown : ~ In (test_of_argv argv) builtin_names) :
  let test := test_of_argv argv in
  let path := vcd_path_of_argv argv in
  let v0 := mkVcounter 0 0 0 (eval_core 0 0 0 (core new_Vcounter)) in
  let diagnostic :=
    ("Unknown test: " ++ test ++ String (ascii_of_nat 10) EmptyString)%string in
  (forall s, main_dispatch test s = emit (Cerr diagnostic) s)
  /\ main ok argv =
     (0, mkSim v0 1
               [Trace 99; Open path ok;
                SetClk 0; SetRst 0; SetEn 0; Eval; Dump 0 v0;
                Cerr diagnostic;
                Close; DeleteVcd; Final; DeleteTop])
  /\ String.length diagnostic = (14 + String.length test + 1)%nat.
Proof.
  cbv zeta. apply spec_lookup_None in Hunknown. split; [|split].
  - intro s. now rewrite main_dispatch_script, Hunknown.
  - rewrite main_script, Hunknown. reflexivity.
  - rewrite !string_length_append. reflexivity.
Qed.

(** ** Statements that do not read the log *)

Lemma blind_skip : log_blind skip.
Proof. intros t m. exists t, m, []. intro l. now rewrite app_nil_r. Qed.

Lemma blind_emit (e : Event) : log_blind (emit e).
Proof. intros t m. now exists t, m, [e]. Qed.

Lemma blind_set_clk (v : Z) : log_blind (set_clk v).
Proof.
  intros t m. now exists (mkVcounter v (rst t) (en t) (core t)), m, [SetClk v].
Qed.

Lemma blind_set_rst (v : Z) : log_blind (set_rst v).
Proof.
  intros t m. now exists (mkVcounter (clk t) v (en t) (core t)), m, [SetRst v].
Qed.

Lemma blind_set_en (v : Z) : log_blind (set_en v).
Proof.
  intros t m. now exists (mkVcounter (clk t) (rst t) v (core t)), m, [SetEn v].
Qed.

Lemma blind_eval : log_blind eval.
Proof. intros t m. now exists (reset_phase (rst t) t), m, [Eval]. Qed.

Lemma blind_dump_postinc : log_blind dump_postinc.
Proof. intros t m. now exists t, (vluint64_wrap (m + 1)), [Dump m t]. Qed.

Lemma blind_seq (a b : Stmt) : log_blind a -> log_blind b -> log_blind (a ;; b).
Proof.
  intros Ha Hb t m.
  destruct (Ha t m) as (t1 & m1 & d1 & E1).
  destruct (Hb t1 m1) as (t2 & m2 & d2 & E2).
  exists t2, m2, (d1 ++ d2). intro l.
  unfold seq_stmt. now rewrite E1, E2, app_assoc.
Qed.

Lemma blind_if_tfp (tfp : VcdPtr) (st : Stmt) :
  log_blind st -> log_blind (if_tfp tfp st).
Proof. destruct tfp; [intros _; apply blind_skip | trivial]. Qed.

Lemma blind_repeat (k : nat) (body : Stmt) :
  log_blind body -> log_blind (repeat_stmt k body).
Proof.
  intro Hb. induction k as [|k IH]; simpl.
  - apply blind_skip.
  - now apply blind_seq.
Qed.

Lemma blind_for_lt (n : Z) (body : Stmt) :
  log_blind body -> log_blind (for_lt n body).
Proof.
  intros Hb t m.
  destruct (blind_repeat (Z.to_nat n) body Hb t m) as (t' & m' & d & E).
  exists t', m', d. intro l. now rewrite for_lt_repeat.
Qed.

Ltac blind_steps :=
  repeat match goal with
         | |- log_blind (_ ;; _) => apply blind_seq
         | |- log_blind (if_tfp _ _) => apply blind_if_tfp
         | |- log_blind (for_lt _ _) => apply blind_for_lt
         | |- log_blind (repeat_stmt _ _) => apply blind_repeat
         | |- log_blind skip => apply blind_skip
         | |- log_blind (emit _) => apply blind_emit
         | |- log_blind (set_clk _) => apply blind_set_clk
         | |- log_blind (set_rst _) => apply blind_set_rst
         | |- log_blind (set_en _) => apply blind_set_en
         | |- log_blind eval => apply blind_eval
         | |- log_blind dump_postinc => apply blind_dump_postinc
         end.

Lemma blind_tick (tfp : VcdPtr) : log_blind (tick tfp).
Proof. unfold tick. blind_steps. Qed.

Lemma blind_reset (tfp : VcdPtr) (cycles : Z) : log_blind (reset tfp cycles).
Proof. unfold reset. blind_steps. apply blind_tick. Qed.

Lemma blind_main_dispatch (test : string) : log_blind (main_dispatch test).
Proof.
  unfold main_dispatch. cbv zeta.
  repeat match goal with
         | |- log_blind (if ?b then _ else _) => destruct b
         end;
    blind_steps; auto using blind_tick, blind_reset.
Qed.

Lemma blind_main_after_open (test : string) : log_blind (main_after_open test).
Proof.
  unfold main_after_open, main_shutdown. blind_steps.
  apply blind_main_dispatch.
Qed.

Lemma main_after_open_eq (ok : bool) (argv : list string) :
  main ok argv =
  (0, main_after_open (test_of_argv argv)
        (mkSim new_Vcounter 0 [Trace 99; Open (vcd_path_of_argv argv) ok])).
Proof. reflexivity. Qed.

(** C7, as the code has it: the answer of [tfp->open] is never looked at.
    Whether or not the file could be opened, [main] returns 0; after the
    "Init" line the selected scenario runs in full (for a built-in name the
    script of the table with all its ticks, resets, evaluations and
    snapshots, for another name the diagnostic), then the recorder is closed
    and the device finalized; the device, the time and every event but the
    [open] call itself are the same whether the open succeeded or not. *)
Theorem C7_open_result_ignored (argv : list string) :
  let test := test_of_argv argv in
  let path := vcd_path_of_argv argv in
  let v0 := mkVcounter 0 0 0 (eval_core 0 0 0 (core new_Vcounter)) in
  let init := fun ok : bool =>
                [Trace 99; Open path ok;
                 SetClk 0; SetRst 0; SetEn 0; Eval; Dump 0 v0] in
  exists (script : list Event) (final_top : Vcounter Core) (final_time : Z),
    (forall ok : bool,
        main_init ok path process_start = mkSim v0 1 (init ok)
        /\ main ok argv =
           (0, mkSim final_top final_time
                     (init ok ++ script
                              ++ [Close; DeleteVcd; Final; DeleteTop])))
    /\ (forall (sc : Scenario) (ok : bool),
           In (test, sc) spec_table ->
           spec_run vcd sc (mkSim v0 1 (init ok))
           = mkSim final_top final_time (init ok ++ script)
           /\ count is_call_tick script = scenario_ticks sc
           /\ count is_call_reset script = scenario_resets sc
           /\ count is_eval script
              = (2 * scenario_ticks sc + 2 * scenario_resets sc)%nat
           /\ count is_dump script
              = (2 * scenario_ticks sc + 2 * scenario_resets sc)%nat)
    /\ (~ In test builtin_names ->
        script
        = [Cerr ("Unknown test: " ++ test
                 ++ String (ascii_of_nat 10) EmptyString)%string]).
Proof.
  cbv zeta.
  set (v0 := mkVcounter 0 0 0 (eval_core 0 0 0 (core new_Vcounter))).
  set (init := fun ok : bool =>
                 [Trace 99; Open (vcd_path_of_argv argv) ok;
                  SetClk 0; SetRst 0; SetEn 0; Eval; Dump 0 v0]).
  destruct (blind_main_dispatch (test_of_argv argv) v0 1)
    as (t' & m' & d & E).
  exists d, t', m'.
  assert (Hinit : forall ok,
             main_init ok (vcd_path_of_argv argv) process_start
             = mkSim v0 1 (init ok)) by reflexivity.
  split; [|split].
  - intro ok. split; [apply Hinit|].
    unfold main.
    change ((?a ;; ?b ;; ?c) ?s) with (c (b (a s))).
    rewrite Hinit, E.
    unfold main_shutdown, seq_stmt, emit. cbn [log top main_time].
    rewrite <- !app_assoc. reflexivity.
  - intros sc ok Hin. apply spec_lookup_table in Hin.
    assert (Hrun : spec_run vcd sc (mkSim v0 1 (init ok))
                   = mkSim t' m' (init ok ++ d)).
    { rewrite <- E, main_dispatch_script, Hin. reflexivity. }
    split; [exact Hrun|].
    pose proof (spec_run_call_ticks vcd sc (mkSim v0 1 (init ok))) as Ht.
    pose proof (spec_run_call_resets vcd sc (mkSim v0 1 (init ok))) as Hr.
    pose proof (spec_run_evals vcd sc (mkSim v0 1 (init ok))) as He.
    pose proof (spec_run_dumps vcd sc (mkSim v0 1 (init ok))) as Hd.
    rewrite Hrun in Ht, Hr, He, Hd. cbn [log dumps_per_tick] in Ht, Hr, He, Hd.
    rewrite count_app in Ht, Hr, He, Hd.
    change (count is_call_tick (init ok)) with O in Ht.
    change (count is_call_reset (init ok)) with O in Hr.
    change (count is_eval (init ok)) with 1%nat in He.
    change (count is_dump (init ok)) with 1%nat in Hd.
    repeat split; lia.
  - intro Hun. apply spec_lookup_None in Hun.
    pose proof (E []) as E0.
    rewrite main_dispatch_script, Hun in E0.
    cbn [emit log app] in E0. injection E0 as _ _ Hd.
    symmetry. exact Hd.
Qed.

(** ** Without a recorder the time stands still *)

Lemma null_tick_time (c : Z) : keeps (fun s => main_time s = c) (tick nullptr).
Proof. intros s Hs. now rewrite tick_null_eq. Qed.

Lemma null_reset_time (c cycles : Z) :
  keeps (fun s => main_time s = c) (reset nullptr cycles).
Proof.
  unfold reset. cbn [if_tfp]. keeps_steps;
    try apply null_tick_time; intros s Hs; exact Hs.
Qed.

Lemma null_spec_run_time (sc : Scenario) (s : Sim) :
  main_time (spec_run nullptr sc s) = main_time s.
Proof.
  assert (H : keeps (fun s' => main_time s' = main_time s) (spec_run nullptr sc)).
  { induction sc as [|op sc IH]; simpl.
    - apply keeps_skip.
    - apply keeps_seq; [|exact IH].
      destruct op as [[|] v | n | cycles]; simpl.
      + intros s' Hs'; exact Hs'.
      + intros s' Hs'; exact Hs'.
      + apply keeps_repeat, null_tick_time.
      + apply null_reset_time. }
  now apply H.
Qed.

(** C8: [main_time] moves only inside [if (tfp)], together with a [dump].
    So after any sequence of operations, started with the counter equal to
    the number of snapshots, the counter is again the number of snapshots
    recorded so far (as long as that number fits the 64 bits of the
    counter); and with a null recorder the time never moves and nothing is
    recorded, while the device is still evaluated twice per tick and twice
    per reset. *)
Theorem C8_time_follows_snapshots (tfp : VcdPtr) (sc : Scenario) (s : Sim)
        (Hstart : main_time s = Z.of_nat (count is_dump (log s)))
        (Hfits : Z.of_nat (count is_dump (log (spec_run tfp sc s)))
                 < vluint64_modulus) :
  main_time (spec_run tfp sc s)
  = Z.of_nat (count is_dump (log (spec_run tfp sc s)))
  /\ main_time (tick nullptr s) = main_time s
  /\ (forall cycles, main_time (reset nullptr cycles s) = main_time s)
  /\ main_time (spec_run nullptr sc s) = main_time s
  /\ count is_dump (log (spec_run nullptr sc s)) = count is_dump (log s)
  /\ count is_eval (log (tick nullptr s)) = (count is_eval (log s) + 2)%nat
  /\ count is_eval (log (spec_run nullptr sc s))
     = (count is_eval (log s)
        + 2 * scenario_ticks sc + 2 * scenario_resets sc)%nat.
Proof.
  split; [|split; [|split; [|split; [|split; [|split]]]]].
  - pose proof (spec_run_dumps tfp sc s) as Hd.
    assert (Hinv : clock_inv s).
    { unfold clock_inv. rewrite wrap_small; [exact Hstart | lia]. }
    apply (keeps_spec_run clock_inv clock_inv_stable tfp sc) in Hinv.
    unfold clock_inv in Hinv. rewrite Hinv. apply wrap_small. lia.
  - now rewrite tick_null_eq.
  - intro cycles. now apply (null_reset_time (main_time s) cycles).
  - apply null_spec_run_time.
  - rewrite spec_run_dumps. cbn [dumps_per_tick]. lia.
  - apply tick_count_eval.
  - rewrite spec_run_evals. lia.
Qed.

(** C9: an assignment to [en] or [rst] changes that one port and nothing
    else: no evaluation, no snapshot, the time as before.  The value shows
    in the first snapshot of the next call: the low phase of a [tick], or
    for [en] the assert snapshot of a [reset] (which writes [rst] itself);
    in the built-in scripts every assignment is followed by such a call. *)
Theorem C9_input_assignment_frame (b : bool) (s : Sim) (cycles : Z) :
  let v := Z.b2z b in
  let t := top s in
  set_en v s
  = mkSim (mkVcounter (clk t) (rst t) v (core t)) (main_time s)
          (log s ++ [SetEn v])
  /\ set_rst v s
     = mkSim (mkVcounter (clk t) v (en t) (core t)) (main_time s)
             (log s ++ [SetRst v])
  /\ count is_eval (log (set_en v s)) = count is_eval (log s)
  /\ count is_eval (log (set_rst v s)) = count is_eval (log s)
  /\ dumps (log (set_en v s)) = dumps (log s)
  /\ dumps (log (set_rst v s)) = dumps (log s)
  /\ (exists snap rest,
         log (tick vcd (set_en v s))
         = log s ++ [SetEn v; CallTick; SetClk 0; Eval;
                     Dump (main_time s) snap] ++ rest
         /\ en snap = v /\ clk snap = 0)
  /\ (exists snap rest,
         log (tick vcd (set_rst v s))
         = log s ++ [SetRst v; CallTick; SetClk 0; Eval;
                     Dump (main_time s) snap] ++ rest
         /\ rst snap = v /\ clk snap = 0)
  /\ (exists snap rest,
         log (reset vcd cycles (set_en v s))
         = log s ++ [SetEn v; CallReset cycles; SetRst 1; Eval;
                     Dump (main_time s) snap] ++ rest
         /\ en snap = v /\ rst snap = 1)
  /\ forallb (fun entry => assignments_observed (snd entry)) spec_table = true.
Proof.
  cbv zeta.
  split; [|split; [|split; [|split; [|split; [|split; [|split;
    [|split; [|split]]]]]]]].
  - reflexivity.
  - reflexivity.
  - cbn [set_en log]. now rewrite count_snoc_other.
  - cbn [set_rst log]. now rewrite count_snoc_other.
  - cbn [set_en log]. now rewrite dumps_snoc_other.
  - cbn [set_rst log]. now rewrite dumps_snoc_other.
  - rewrite tick_vcd_eq. cbn [log set_en top main_time].
    eexists. eexists. split; [|split].
    + rewrite <- !app_assoc. cbn [app]. reflexivity.
    + reflexivity.
    + reflexivity.
  - rewrite tick_vcd_eq. cbn [log set_rst top main_time].
    eexists. eexists. split; [|split].
    + rewrite <- !app_assoc. cbn [app]. reflexivity.
    + reflexivity.
    + reflexivity.
  - pose proof (reset_vcd_eq cycles (set_en (Z.b2z b) s)) as E.
    cbv zeta in E. rewrite E. cbn [log].
    match goal with
    | |- context [repeat_stmt ?k ?body ?s1] =>
        destruct (grows_repeat k body (grows_tick vcd) s1) as [mid Hmid];
        rewrite Hmid
    end.
    cbn [log set_en top main_time].
    eexists. eexists. split; [|split].
    + rewrite <- !app_assoc. cbn [app]. reflexivity.
    + reflexivity.
    + reflexivity.
  - reflexivity.
Qed.

(** ** The level of [clk] when [tick] is entered *)

Lemma clk_after_app (c : Z) (l1 l2 : list Event) :
  clk_after c (l1 ++ l2) = clk_after (clk_after c l1) l2.
Proof. unfold clk_after. now rewrite clk_writes_app, fold_left_app. Qed.

Lemma clk_at_ticks_app (l1 l2 : list Event) :
  forall c,
    clk_at_ticks c (l1 ++ l2)
    = clk_at_ticks c l1 ++ clk_at_ticks (clk_after c l1) l2.
Proof.
  induction l1 as [|e l1 IH]; intro c; [reflexivity|].
  destruct e; cbn [app clk_at_ticks]; rewrite IH; reflexivity.
Qed.

Lemma clk_at_ticks_length (l : list Event) :
  forall c, List.length (clk_at_ticks c l) = count is_call_tick l.
Proof.
  induction l as [|e l IH]; intro c; [reflexivity|].
  change (e :: l) with ([e] ++ l). rewrite count_app.
  destruct e; cbn [app clk_at_ticks List.length]; rewrite IH; reflexivity.
Qed.

Lemma levels_snoc (c0 : Z) (s : Sim) (e : Event) (t : Vcounter Core) (m : Z) :
  off_clock e = true -> clk t = clk (top s) ->
  tick_levels_ok c0 s -> tick_levels_ok c0 (mkSim t m (log s ++ [e])).
Proof.
  intros He Hclk [Hafter Hlv]. unfold tick_levels_ok. cbn [log top].
  rewrite clk_after_app, clk_at_ticks_app, Hclk.
  assert (E1 : clk_after (clk_after c0 (log s)) [e] = clk_after c0 (log s))
    by (destruct e; try discriminate He; reflexivity).
  assert (E2 : clk_at_ticks (clk_after c0 (log s)) [e] = [])
    by (destruct e; try discriminate He; reflexivity).
  rewrite E1, E2, app_nil_r. now split.
Qed.

Lemma levels_emit (c0 : Z) (e : Event) :
  off_clock e = true -> keeps (tick_levels_ok c0) (emit e).
Proof. intros He s Hs. now apply levels_snoc. Qed.

Lemma levels_set_rst (c0 v : Z) : keeps (tick_levels_ok c0) (set_rst v).
Proof. intros s Hs. now apply levels_snoc. Qed.

Lemma levels_set_en (c0 v : Z) : keeps (tick_levels_ok c0) (set_en v).
Proof. intros s Hs. now apply levels_snoc. Qed.

Lemma levels_eval (c0 : Z) : keeps (tick_levels_ok c0) eval.
Proof. intros s Hs. now apply levels_snoc. Qed.

Lemma levels_dump (c0 : Z) : keeps (tick_levels_ok c0) dump_postinc.
Proof. intros s Hs. now apply levels_snoc. Qed.

Lemma levels_tick (c0 : Z) (tfp : VcdPtr) : keeps (tick_levels_ok c0) (tick tfp).
Proof.
  intros s [Hafter Hlv].
  assert (E : exists d m,
             tick tfp s = mkSim (high_phase (low_phase (top s))) m (log s ++ d)
             /\ clk_after (clk (top s)) d = 1
             /\ clk_at_ticks (clk (top s)) d = [clk (top s)]).
  { destruct tfp; [rewrite tick_null_eq | rewrite tick_vcd_eq];
      eexists; eexists; repeat split. }
  destruct E as (d & m & -> & Ea & El).
  unfold tick_levels_ok. cbn [log top].
  rewrite clk_after_app, clk_at_ticks_app, Hafter, Ea, El.
  split; [reflexivity|]. right.
  destruct Hlv as [[-> ->] | (k & -> & ->)].
  - now exists O.
  - exists (S k). split; [|reflexivity].
    cbn [app]. f_equal. symmetry. apply repeat_cons.
Qed.

Lemma levels_reset (c0 : Z) (tfp : VcdPtr) (cycles : Z) :
  keeps (tick_levels_ok c0) (reset tfp cycles).
Proof.
  unfold reset. keeps_steps;
    auto using levels_emit, levels_set_rst, levels_eval, levels_dump,
               levels_tick.
Qed.

Lemma levels_spec_run (c0 : Z) (tfp : VcdPtr) (sc : Scenario) :
  keeps (tick_levels_ok c0) (spec_run tfp sc).
Proof.
  induction sc as [|op sc IH]; simpl.
  - apply keeps_skip.
  - apply keeps_seq; [|exact IH].
    destruct op as [[|] v | n | cycles]; simpl.
    + apply levels_set_rst.
    + apply levels_set_en.
    + apply keeps_repeat, levels_tick.
    + apply levels_reset.
Qed.

Lemma levels_main (c0 : Z) (ok : bool) (argv : list string) :
  tick_levels_ok c0 (snd (main ok argv)).
Proof.
  rewrite main_script. cbn [snd].
  assert (H0 : tick_levels_ok c0
                 (main_init ok (vcd_path_of_argv argv) process_start)).
  { split; [reflexivity | left; now split]. }
  assert (Hsh : keeps (tick_levels_ok c0) main_shutdown).
  { unfold main_shutdown. keeps_steps; now apply levels_emit. }
  apply Hsh.
  destruct (spec_lookup (test_of_argv argv) spec_table) as [sc|].
  - now apply levels_spec_run.
  - now apply levels_emit.
Qed.

(** C10: after the baseline initialization [clk] is 0 and after every call
    of [tick] it is 1.  Every [tick] writes [clk] twice, 0 then 1: one
    rising edge, and a falling edge before it exactly when [clk] was not 0
    at entry.  In every run [tick] is entered with [clk] at 0 the first
    time and at 1 every time after: all ticks but the first show a falling
    edge at their low phase. *)
Theorem C10_clock_levels :
  (forall ok path s, clk (top (main_init ok path s)) = 0)
  /\ (forall tfp s, clk (top (tick tfp s)) = 1)
  /\ (forall tfp s,
         exists ws,
           clk_writes (log (tick tfp s)) = clk_writes (log s) ++ ws
           /\ ws = [0; 1]
           /\ rising_edges (clk (top s)) ws = 1%nat
           /\ falling_edges (clk (top s)) ws
              = if clk (top s) =? 0 then O else 1%nat)
  /\ (forall ok argv c0,
         let levels := clk_at_ticks c0 (log (snd (main ok argv))) in
         List.length levels = count is_call_tick (log (snd (main ok argv)))
         /\ (levels = [] \/ exists k, levels = 0 :: repeat 1 k)).
Proof.
  split; [|split; [|split]].
  - reflexivity.
  - intros tfp s. destruct tfp; [now rewrite tick_null_eq | now rewrite tick_vcd_eq].
  - intros tfp s. exists [0; 1].
    split; [|split; [reflexivity|]].
    + destruct tfp; [rewrite tick_null_eq | rewrite tick_vcd_eq];
        cbn [log]; now rewrite clk_writes_app.
    + cbn [rising_edges falling_edges]. cbn.
      destruct (clk (top s) =? 0); split; reflexivity.
  - intros ok argv c0. cbv zeta. split.
    + apply clk_at_ticks_length.
    + destruct (levels_main c0 ok argv) as [_ [[-> _] | (k & -> & _)]].
      * now left.
      * right. now exists k.
Qed.

(** ** What a scenario body appends to the log *)

Section Appends.
Variable Q : list Event -> Prop.
Hypothesis HQ : scenario_closed Q.

Lemma appends_skip : appends Q skip.
Proof.
  intro s. exists []. split; [now rewrite app_nil_r | apply (closed_nil Q HQ)].
Qed.

Lemma appends_seq (a b : Stmt) : appends Q a -> appends Q b -> appends Q (a ;; b).
Proof.
  intros Ha Hb s. unfold seq_stmt.
  destruct (Ha s) as (d1 & E1 & Q1). destruct (Hb (a s)) as (d2 & E2 & Q2).
  exists (d1 ++ d2). split.
  - now rewrite E2, E1, app_assoc.
  - now apply (closed_app Q HQ).
Qed.

Lemma appends_repeat (k : nat) (body : Stmt) :
  appends Q body -> appends Q (repeat_stmt k body).
Proof.
  intro Hb. induction k as [|k IH]; simpl.
  - apply appends_skip.
  - now apply appends_seq.
Qed.

Lemma appends_for_lt (n : Z) (body : Stmt) :
  appends Q body -> appends Q (for_lt n body).
Proof. intros Hb s. rewrite for_lt_repeat. now apply appends_repeat. Qed.

Lemma appends_one (st : Stmt) (e : Event) :
  (forall s, log (st s) = log s ++ [e]) -> Q [e] -> appends Q st.
Proof. intros E He s. exists [e]. now split. Qed.

Lemma appends_tick : appends Q (tick vcd).
Proof.
  intro s. rewrite tick_vcd_eq. cbn [log]. eexists. split; [reflexivity|].
  apply (closed_tick Q HQ).
Qed.

Lemma appends_reset (cycles : Z) : appends Q (reset vcd cycles).
Proof.
  intro s. pose proof (reset_vcd_eq cycles s) as E. cbv zeta in E.
  rewrite E. cbn [log].
  match goal with
  | |- context [repeat_stmt ?k ?body ?s1] =>
      destruct (appends_repeat k body appends_tick s1) as (mid & Hmid & Qmid);
      rewrite Hmid
  end.
  cbn [log].
  eexists. split.
  - rewrite <- !app_assoc. reflexivity.
  - apply (closed_app Q HQ); [apply (closed_assert Q HQ)|].
    apply (closed_app Q HQ); [exact Qmid | apply (closed_deassert Q HQ)].
Qed.

Ltac appends_steps :=
  repeat match goal with
         | |- appends _ (_ ;; _) => apply appends_seq
         | |- appends _ (for_lt _ _) => apply appends_for_lt
         | |- appends _ (tick vcd) => apply appends_tick
         | |- appends _ (reset vcd _) => apply appends_reset
         | |- appends _ (set_en 0) =>
             apply (appends_one _ (SetEn 0)); [reflexivity | apply (closed_en0 Q HQ)]
         | |- appends _ (set_en 1) =>
             apply (appends_one _ (SetEn 1)); [reflexivity | apply (closed_en1 Q HQ)]
         | |- appends _ (set_rst 0) =>
             apply (appends_one _ (SetRst 0)); [reflexivity | apply (closed_rst0 Q HQ)]
         | |- appends _ (set_rst 1) =>
             apply (appends_one _ (SetRst 1)); [reflexivity | apply (closed_rst1 Q HQ)]
         | |- appends _ (emit (Cerr ?m)) =>
             apply (appends_one _ (Cerr m)); [reflexivity | apply (closed_cerr Q HQ)]
         end.

Lemma appends_main_dispatch (test : string) : appends Q (main_dispatch test).
Proof.
  unfold main_dispatch. cbv zeta.
  repeat match goal with
         | |- appends Q (if ?b then _ else _) => destruct b
         end;
    appends_steps.
Qed.

(** The log of a run: the lines up to "Init", what the scenario appends,
    the shutdown. *)
Lemma main_log_structure (ok : bool) (argv : list string) :
  exists d,
    log (snd (main ok argv))
    = [Trace 99; Open (vcd_path_of_argv argv) ok;
       SetClk 0; SetRst 0; SetEn 0; Eval;
       Dump 0 (mkVcounter 0 0 0 (eval_core 0 0 0 (core new_Vcounter)))]
      ++ d ++ [Close; DeleteVcd; Final; DeleteTop]
    /\ Q d.
Proof.
  unfold main. cbn [snd].
  change ((?a ;; ?b ;; ?c) ?s) with (c (b (a s))).
  destruct (appends_main_dispatch (test_of_argv argv)
              (main_init ok (vcd_path_of_argv argv) process_start))
    as (d & E & Qd).
  exists d. split; [|exact Qd].
  unfold main_shutdown, seq_stmt, emit. cbn [log]. rewrite E.
  rewrite <- !app_assoc. reflexivity.
Qed.

End Appends.

(** ** Evaluations and snapshots go in pairs *)

Lemma alternating_app_bounded (n : nat) :
  forall l1 l2,
    (List.length l1 <= n)%nat ->
    alternating l1 = true -> alternating l2 = true ->
    alternating (l1 ++ l2) = true.
Proof.
  induction n as [|n IH]; intros l1 l2 Hlen H1 H2.
  - destruct l1; [exact H2 | simpl in Hlen; lia].
  - destruct l1 as [|e l1]; [exact H2|].
    simpl in Hlen.
    destruct e; cbn [app alternating] in *; try discriminate H1;
      try (apply IH; [lia | assumption | assumption]).
    destruct l1 as [|e' l1]; [discriminate H1|].
    destruct e'; try discriminate H1.
    cbn [app]. apply IH; [simpl in Hlen; lia | assumption | assumption].
Qed.

Lemma alternating_app (l1 l2 : list Event) :
  alternating l1 = true -> alternating l2 = true ->
  alternating (l1 ++ l2) = true.
Proof. apply (alternating_app_bounded (List.length l1)). lia. Qed.

Lemma alternating_closed : scenario_closed (fun d => alternating d = true).
Proof.
  split; try reflexivity. intros l1 l2. apply alternating_app.
Qed.

Lemma alternating_nth_bounded (n : nat) :
  forall l,
    (List.length l <= n)%nat ->
    alternating l = true ->
    (forall i, nth_error l i = Some Eval ->
               exists t v, nth_error l (S i) = Some (Dump t v))
    /\ (forall i t v, nth_error l i = Some (Dump t v) ->
                      exists j, i = S j /\ nth_error l j = Some Eval).
Proof.
  induction n as [|n IH]; intros l Hlen Hl.
  - destruct l; [|simpl in Hlen; lia].
    split; intros; destruct i; discriminate.
  - destruct l as [|e l].
    { split; intros; destruct i; discriminate. }
    simpl in Hlen.
    assert (Hother :
              e <> Eval -> (forall t v, e <> Dump t v) ->
              alternating l = true ->
              (forall i, nth_error (e :: l) i = Some Eval ->
                         exists t v, nth_error (e :: l) (S i) = Some (Dump t v))
              /\ (forall i t v, nth_error (e :: l) i = Some (Dump t v) ->
                                exists j, i = S j
                                          /\ nth_error (e :: l) j = Some Eval)).
    { intros Hne Hnd Hal. destruct (IH l ltac:(lia) Hal) as [A B]. split.
      - intros [|i] Hi; cbn [nth_error] in Hi.
        + congruence.
        + apply A in Hi. exact Hi.
      - intros [|i] t v Hi; cbn [nth_error] in Hi.
        + exfalso. apply (Hnd t v). congruence.
        + destruct (B i t v Hi) as (j & -> & Hj).
          exists (S j). split; [reflexivity | exact Hj]. }
    destruct e; cbn [alternating] in Hl; try discriminate Hl;
      try (apply Hother; [discriminate | discriminate | exact Hl]).
    destruct l as [|e' l]; [discriminate Hl|].
    destruct e'; try discriminate Hl.
    simpl in Hlen. destruct (IH l ltac:(lia) Hl) as [A B]. split.
    + intros [|[|i]] Hi; cbn [nth_error] in Hi.
      * now exists t, snap.
      * discriminate Hi.
      * apply A in Hi. exact Hi.
    + intros [|[|i]] t' v' Hi; cbn [nth_error] in Hi.
      * discriminate Hi.
      * exists O. now split.
      * destruct (B i t' v' Hi) as (j & -> & Hj).
        exists (S (S j)). split; [reflexivity | exact Hj].
Qed.

(** X9: In every run each evaluation of the device is directly followed by one
    snapshot, and every snapshot directly follows an evaluation: the
    recorder never gets a state that was not just evaluated, and no
    evaluated state goes unrecorded. *)
Theorem run_evals_and_dumps_alternate (ok : bool) (argv : list string) :
  let l := log (snd (main ok argv)) in
  (forall i, nth_error l i = Some Eval ->
             exists t v, nth_error l (S i) = Some (Dump t v))
  /\ (forall i t v, nth_error l i = Some (Dump t v) ->
                    exists j, i = S j /\ nth_error l j = Some Eval)
  /\ count is_eval l = count is_dump l.
Proof.
  cbv zeta.
  destruct (main_log_structure _ alternating_closed ok argv) as (d & E & Hd).
  assert (Hal : alternating (log (snd (main ok argv))) = true).
  { rewrite E. apply alternating_app; [reflexivity|].
    apply alternating_app; [exact Hd | reflexivity]. }
  destruct (alternating_nth_bounded _ _ (le_n _) Hal) as [A B].
  split; [exact A | split; [exact B|]].
  destruct (main_counts ok argv) as (Hdump & Heval & _).
  rewrite Hdump, Heval. lia.
Qed.

(** ** Set-up and tear-down *)

Lemma no_lifecycle_closed :
  scenario_closed (fun d => count is_lifecycle d = O).
Proof.
  split; try reflexivity.
  intros l1 l2 H1 H2. rewrite count_app, H1, H2. reflexivity.
Qed.

(** X10: Every run opens the recorder once, before anything is done to the
    device, and ends with close, delete, final, delete in this order;
    nothing of the kind happens in between, so every snapshot lies between
    the open and the close, and the device is finalized after the recorder
    is closed. *)
Theorem run_lifecycle_order (ok : bool) (argv : list string) :
  exists mid,
    log (snd (main ok argv))
    = [Trace 99; Open (vcd_path_of_argv argv) ok]
      ++ mid ++ [Close; DeleteVcd; Final; DeleteTop]
    /\ count is_lifecycle mid = O
    /\ count is_dump mid = count is_dump (log (snd (main ok argv))).
Proof.
  destruct (main_log_structure _ no_lifecycle_closed ok argv) as (d & E & Hd).
  eexists ([SetClk 0; SetRst 0; SetEn 0; Eval; Dump 0 _] ++ d).
  split; [|split].
  - rewrite E. cbn [app]. reflexivity.
  - rewrite count_app, Hd. reflexivity.
  - rewrite E, !count_app. cbn. lia.
Qed.

(** ** Values written to the ports *)

Lemma drives_bit_closed :
  scenario_closed (fun d => forallb drives_bit d = true).
Proof.
  split; try reflexivity.
  intros l1 l2 H1 H2. now rewrite forallb_app, H1, H2.
Qed.

(** X11: In every run each assignment to [clk], [rst] or [en] writes 0 or 1. *)
Theorem run_drives_only_bits (ok : bool) (argv : list string) (v : Z) :
  let l := log (snd (main ok argv)) in
  In (SetClk v) l \/ In (SetRst v) l \/ In (SetEn v) l ->
  v = 0 \/ v = 1.
Proof.
  cbv zeta. intro Hin.
  destruct (main_log_structure _ drives_bit_closed ok argv) as (d & E & Hd).
  assert (Hall : forallb drives_bit (log (snd (main ok argv))) = true).
  { rewrite E, !forallb_app, Hd. reflexivity. }
  rewrite forallb_forall in Hall.
  assert (Hbit : (v =? 0) || (v =? 1) = true).
  { destruct Hin as [H|[H|H]]; apply Hall in H; exact H. }
  apply orb_true_iff in Hbit. lia.
Qed.

(** ** Ports that a statement leaves alone *)

Section Frame.
Variable base : list Event.
Variables r e : Z.

Lemma frame_start (s : Sim) :
  base = log s -> rst (top s) = r -> en (top s) = e -> frame_inv base r e s.
Proof.
  intros -> Hr He. exists []. rewrite app_nil_r.
  repeat split; [exact Hr | exact He | constructor].
Qed.

Lemma frame_snoc (s : Sim) (ev : Event) (t : Vcounter Core) (m : Z) :
  is_dump ev = false ->
  rst t = rst (top s) -> en t = en (top s) ->
  frame_inv base r e s -> frame_inv base r e (mkSim t m (log s ++ [ev])).
Proof.
  intros Hev Hr He (d & El & Hrs & Hes & Hd).
  exists (d ++ [ev]). cbn [log top].
  rewrite El, app_assoc, dumps_snoc_other by exact Hev.
  repeat split; congruence || assumption.
Qed.

Lemma frame_emit (ev : Event) :
  is_dump ev = false -> keeps (frame_inv base r e) (emit ev).
Proof. intros Hev s Hs. now apply frame_snoc. Qed.

Lemma frame_set_clk (v : Z) : keeps (frame_inv base r e) (set_clk v).
Proof. intros s Hs. now apply frame_snoc. Qed.

Lemma frame_eval : keeps (frame_inv base r e) eval.
Proof. intros s Hs. now apply frame_snoc. Qed.

Lemma frame_dump : keeps (frame_inv base r e) dump_postinc.
Proof.
  intros s (d & El & Hrs & Hes & Hd).
  exists (d ++ [Dump (main_time s) (top s)]). cbn [dump_postinc log top].
  rewrite El, app_assoc, dumps_app.
  repeat split; try assumption.
  apply Forall_app. split; [exact Hd|].
  constructor; [now split | constructor].
Qed.

Lemma frame_tick (tfp : VcdPtr) : keeps (frame_inv base r e) (tick tfp).
Proof.
  unfold tick. keeps_steps;
    auto using frame_emit, frame_set_clk, frame_eval, frame_dump.
Qed.

End Frame.

(** X1: A loop of ticks writes neither [rst] nor [en]: after any number of
    rounds both ports are as at entry, and every snapshot the loop records
    shows them as at entry. *)
Theorem tick_loop_leaves_rst_en (tfp : VcdPtr) (n : Z) (s : Sim) :
  exists d,
    log (for_lt n (tick tfp) s) = log s ++ d
    /\ rst (top (for_lt n (tick tfp) s)) = rst (top s)
    /\ en (top (for_lt n (tick tfp) s)) = en (top s)
    /\ Forall (fun x => rst (snd x) = rst (top s) /\ en (snd x) = en (top s))
              (dumps d).
Proof.
  apply (keeps_for_lt _ n (tick tfp) (frame_tick (log s) _ _ tfp)).
  now apply frame_start.
Qed.

(** X2: With [cycles <= 0] the loop of [reset] is not entered: [reset] is the
    assert and the deassert snapshot and no tick, as for [cycles = 0]. *)
Theorem reset_nonpositive_cycles (cycles : Z) (s : Sim) (Hc : cycles <= 0) :
  let v1 := reset_phase 1 (top s) in
  let v3 := reset_phase 0 v1 in
  reset vcd cycles s =
  mkSim v3 (vluint64_wrap (vluint64_wrap (main_time s + 1) + 1))
        (log s ++ [CallReset cycles; SetRst 1; Eval; Dump (main_time s) v1;
                   SetRst 0; Eval;
                   Dump (vluint64_wrap (main_time s + 1)) v3]).
Proof.
  cbv zeta. pose proof (reset_vcd_eq cycles s) as E. cbv zeta in E.
  rewrite E. replace (Z.to_nat cycles) with O by lia.
  cbn [repeat_stmt skip log top main_time].
  rewrite <- app_assoc. reflexivity.
Qed.

(** X3: [reset] holds [rst] at 1 from its first snapshot to the last but one:
    the assert snapshot and the two snapshots of each of the [cycles] ticks
    show [rst = 1], the last snapshot shows [rst = 0], and [en] is as at
    entry in all of them and afterwards. *)
Theorem reset_holds_rst (cycles : Z) (s : Sim) :
  exists held t v,
    dumps (log (reset vcd cycles s)) = dumps (log s) ++ held ++ [(t, v)]
    /\ Forall (fun x => rst (snd x) = 1 /\ en (snd x) = en (top s)) held
    /\ List.length held = (1 + 2 * Z.to_nat cycles)%nat
    /\ rst v = 0 /\ en v = en (top s)
    /\ top (reset vcd cycles s) = v.
Proof.
  pose proof (reset_vcd_eq cycles s) as E. cbv zeta in E. rewrite E.
  cbn [log top].
  set (v1 := reset_phase 1 (top s)) in *.
  set (s1 := mkSim v1 _ _) in *.
  set (k := Z.to_nat cycles) in *.
  assert (H1 : frame_inv (log s) 1 (en (top s)) s1).
  { exists [CallReset cycles; SetRst 1; Eval; Dump (main_time s) v1].
    repeat split. repeat constructor. }
  apply (keeps_repeat _ k (tick vcd) (frame_tick (log s) _ _ vcd)) in H1.
  destruct H1 as (d & El & Hr & He & Hd).
  exists (dumps d). eexists. eexists.
  split; [|split; [|split; [|split; [|split]]]].
  - rewrite El, !dumps_app, <- app_assoc. reflexivity.
  - exact Hd.
  - pose proof (repeat_count is_dump (tick vcd) 2 (tick_count_dump vcd) k s1)
      as Hn.
    rewrite El in Hn. subst s1. cbn [log] in Hn.
    rewrite !count_app in Hn. rewrite dumps_length.
    change (count is_dump [CallReset cycles; SetRst 1; Eval;
                           Dump (main_time s) v1]) with 1%nat in Hn.
    lia.
  - reflexivity.
  - exact He.
  - reflexivity.
Qed.

(** ** The device alone *)

Lemma top_tick (tfp : VcdPtr) (s : Sim) : top (tick tfp s) = tick_device (top s).
Proof. destruct tfp; [now rewrite tick_null_eq | now rewrite tick_vcd_eq]. Qed.

Lemma top_repeat_tick (tfp : VcdPtr) (k : nat) :
  forall s, top (repeat_stmt k (tick tfp) s) = Nat.iter k tick_device (top s).
Proof.
  induction k as [|k IH]; intro s; [reflexivity|].
  rewrite repeat_stmt_succ, IH, top_tick, Nat.iter_succ_r. reflexivity.
Qed.

Lemma top_for_lt_tick (tfp : VcdPtr) (n : Z) (s : Sim) :
  top (for_lt n (tick tfp) s) = Nat.iter (Z.to_nat n) tick_device (top s).
Proof. rewrite for_lt_repeat. apply top_repeat_tick. Qed.

Lemma top_reset (tfp : VcdPtr) (cycles : Z) (s : Sim) :
  top (reset tfp cycles s) = reset_device cycles (top s).
Proof.
  unfold reset.
  change ((?a ;; ?b ;; ?c ;; ?d ;; ?e ;; ?f ;; ?g ;; ?h) s)
    with (h (g (f (e (d (c (b (a s)))))))).
  assert (Hd : forall x, top (if_tfp tfp dump_postinc x) = top x)
    by (intro x; now destruct tfp).
  rewrite Hd. cbn [eval set_rst top clk rst en core].
  rewrite top_for_lt_tick, Hd. reflexivity.
Qed.

(** X4: What [tick], a loop of ticks and [reset] do to the device is a function
    of the device at entry alone: the recorder pointer, the time and the log
    have no part in it. *)
Theorem device_state_of_tick_and_reset (tfp : VcdPtr) (n : Z) (s : Sim) :
  top (tick tfp s) = tick_device (top s)
  /\ top (for_lt n (tick tfp) s) = Nat.iter (Z.to_nat n) tick_device (top s)
  /\ top (reset tfp n s) = reset_device n (top s)
  /\ (forall tfp' m l,
         top (tick tfp s) = top (tick tfp' (mkSim (top s) m l))
         /\ top (reset tfp n s) = top (reset tfp' n (mkSim (top s) m l))).
Proof.
  split; [apply top_tick | split; [apply top_for_lt_tick | split]].
  - apply top_reset.
  - intros tfp' m l. now rewrite !top_tick, !top_reset.
Qed.

(** ** How far the time moves *)

Lemma wrap_add_l (x y : Z) :
  vluint64_wrap (vluint64_wrap x + y) = vluint64_wrap (x + y).
Proof. unfold vluint64_wrap. apply Zplus_mod_idemp_l. Qed.

Lemma time_tick (s : Sim) :
  main_time (tick vcd s) = vluint64_wrap (main_time s + 2).
Proof.
  rewrite tick_vcd_eq. cbn [main_time]. rewrite wrap_add_l.
  apply (f_equal vluint64_wrap). lia.
Qed.

Lemma time_repeat_tick (k : nat) :
  forall s c,
    vluint64_wrap (main_time (repeat_stmt k (tick vcd) s) + c)
    = vluint64_wrap (main_time s + 2 * Z.of_nat k + c).
Proof.
  induction k as [|k IH]; intros s c.
  - change (repeat_stmt 0 (tick vcd) s) with s.
    apply (f_equal vluint64_wrap). lia.
  - rewrite repeat_stmt_succ, IH, time_tick.
    rewrite <- Z.add_assoc, wrap_add_l. apply (f_equal vluint64_wrap). lia.
Qed.

(** X5: With the recorder, [tick] moves the time by 2 and [reset] by
    [2 + 2 * max 0 cycles], modulo [2^64]; and at the end of every run the
    time is the number of snapshots of the run. *)
Theorem time_advance (cycles : Z) (s : Sim) :
  main_time (tick vcd s) = vluint64_wrap (main_time s + 2)
  /\ main_time (reset vcd cycles s)
     = vluint64_wrap (main_time s + 2 + 2 * Z.max 0 cycles)
  /\ (forall ok argv,
         main_time (snd (main ok argv))
         = Z.of_nat (count is_dump (log (snd (main ok argv))))).
Proof.
  split; [apply time_tick | split].
  - pose proof (reset_vcd_eq cycles s) as E. cbv zeta in E. rewrite E.
    cbn [main_time]. rewrite time_repeat_tick. cbn [main_time].
    rewrite <- !Z.add_assoc, wrap_add_l. apply (f_equal vluint64_wrap). lia.
  - intros ok argv.
    pose proof (main_keeps clock_inv clock_inv_stable ok argv
                  (proj1 time_inv_start)) as Hc.
    pose proof (main_dump_count_small ok argv) as Hn.
    unfold clock_inv in Hc. rewrite Hc. apply wrap_small.
    unfold vluint64_modulus. change (2 ^ 64) with 18446744073709551616. lia.
Qed.

(** ** The command line *)

Lemma main_args (ok : bool) (argv argv' : list string) :
  test_of_argv argv = test_of_argv argv' ->
  vcd_path_of_argv argv = vcd_path_of_argv argv' ->
  main ok argv = main ok argv'.
Proof. unfold main. now intros -> ->. Qed.

(** X7: Without a scenario argument (the program name alone, or not even that)
    [main] runs [basic_counting] and opens [waves.vcd]. *)
Theorem main_default_arguments (ok : bool) (argv : list string) (prog : string)
        (Hargc : (List.length argv <= 1)%nat) :
  main ok argv
  = main ok [prog; "basic_counting"%string; "waves.vcd"%string].
Proof.
  apply main_args.
  - destruct argv as [|a [|b rest]]; [reflexivity | reflexivity |].
    simpl in Hargc. lia.
  - destruct argv as [|a [|b rest]]; [reflexivity | reflexivity |].
    simpl in Hargc. lia.
Qed.

End Proofs.

(** * The harness never reads the device *)

Section OpenLoop.
Context `{D : Dut}.

Lemma sim2_skip : sim2 skip (@skip port_dut).
Proof. intros s u H. exact H. Qed.

Lemma sim2_seq (a b : @Stmt D) (a' b' : @Stmt port_dut) :
  sim2 a a' -> sim2 b b' -> sim2 (a ;; b) (a' ;; b').
Proof. intros Ha Hb s u H. apply Hb, Ha, H. Qed.

Lemma sim2_emit (e : @Event D) : sim2 (emit e) (emit (erase_event e)).
Proof.
  intros s u (Ht & Hm & Hl). repeat split; cbn [emit top main_time log].
  - exact Ht.
  - exact Hm.
  - now rewrite map_app, Hl.
Qed.

Lemma sim2_set_clk (v : Z) : sim2 (set_clk v) (@set_clk port_dut v).
Proof.
  intros s u (Ht & Hm & Hl). repeat split; cbn [set_clk top main_time log].
  - now rewrite Ht.
  - exact Hm.
  - now rewrite map_app, Hl.
Qed.

Lemma sim2_set_rst (v : Z) : sim2 (set_rst v) (@set_rst port_dut v).
Proof.
  intros s u (Ht & Hm & Hl). repeat split; cbn [set_rst top main_time log].
  - now rewrite Ht.
  - exact Hm.
  - now rewrite map_app, Hl.
Qed.

Lemma sim2_set_en (v : Z) : sim2 (set_en v) (@set_en port_dut v).
Proof.
  intros s u (Ht & Hm & Hl). repeat split; cbn [set_en top main_time log].
  - now rewrite Ht.
  - exact Hm.
  - now rewrite map_app, Hl.
Qed.

Lemma sim2_eval : sim2 eval (@eval port_dut).
Proof.
  intros s u (Ht & Hm & Hl). repeat split; cbn [eval top main_time log].
  - now rewrite Ht.
  - exact Hm.
  - now rewrite map_app, Hl.
Qed.

Lemma sim2_dump : sim2 dump_postinc (@dump_postinc port_dut).
Proof.
  intros s u (Ht & Hm & Hl).
  repeat split; cbn [dump_postinc top main_time log].
  - exact Ht.
  - now rewrite Hm.
  - now rewrite map_app, Hl, Hm, Ht.
Qed.

Lemma sim2_if_tfp (tfp : VcdPtr) (a : @Stmt D) (a' : @Stmt port_dut) :
  sim2 a a' -> sim2 (if_tfp tfp a) (if_tfp tfp a').
Proof. destruct tfp; [intros _; apply sim2_skip | trivial]. Qed.

Lemma sim2_for_lt (n : Z) (a : @Stmt D) (a' : @Stmt port_dut) :
  sim2 a a' -> sim2 (for_lt n a) (for_lt n a').
Proof.
  intro Ha. unfold for_lt. generalize 0 as i.
  induction (Z.to_nat n) as [|k IH]; intros i s u H; cbn [for_from].
  - exact H.
  - destruct (i <? n); [apply IH, Ha, H | exact H].
Qed.

Ltac sim2_steps :=
  repeat match goal with
         | |- sim2 (_ ;; _) (_ ;; _) => apply sim2_seq
         | |- sim2 (if_tfp _ _) (if_tfp _ _) => apply sim2_if_tfp
         | |- sim2 (for_lt _ _) (for_lt _ _) => apply sim2_for_lt
         | |- sim2 (emit ?e) (emit _) => apply (sim2_emit e)
         | |- sim2 (set_clk _) (set_clk _) => apply sim2_set_clk
         | |- sim2 (set_rst _) (set_rst _) => apply sim2_set_rst
         | |- sim2 (set_en _) (set_en _) => apply sim2_set_en
         | |- sim2 eval eval => apply sim2_eval
         | |- sim2 dump_postinc dump_postinc => apply sim2_dump
         end.

Lemma sim2_tick (tfp : VcdPtr) : sim2 (tick tfp) (@tick port_dut tfp).
Proof. unfold tick. sim2_steps. Qed.

Lemma sim2_reset (tfp : VcdPtr) (cycles : Z) :
  sim2 (reset tfp cycles) (@reset port_dut tfp cycles).
Proof. unfold reset. sim2_steps. apply sim2_tick. Qed.

Lemma sim2_main_dispatch (test : string) :
  sim2 (main_dispatch test) (@main_dispatch port_dut test).
Proof.
  unfold main_dispatch. cbv zeta.
  repeat match goal with
         | |- sim2 (if ?b then _ else _) _ => destruct b
         end;
    sim2_steps; auto using sim2_tick, sim2_reset.
Qed.

Lemma sim2_main_shutdown : sim2 main_shutdown (@main_shutdown port_dut).
Proof. unfold main_shutdown. sim2_steps. Qed.

Lemma main_same_stimulus (ok : bool) (argv : list string) :
  same_stimulus (snd (main ok argv)) (snd (@main port_dut ok argv)).
Proof.
  unfold main. cbn [snd].
  change ((?a ;; ?b ;; ?c) ?s) with (c (b (a s))).
  apply sim2_main_shutdown, sim2_main_dispatch.
  repeat split.
Qed.

End OpenLoop.

(** X12: The harness is open loop: it never reads the device.  On any two
    devices the same arguments give the same exit status, the same final
    time, the same final port values and, up to the state of the device
    inside the snapshots, the same log: the same assignments, evaluations
    and dumps at the same times. *)
Theorem harness_is_open_loop (D1 D2 : Dut) (ok : bool) (argv : list string) :
  fst (@main D1 ok argv) = fst (@main D2 ok argv)
  /\ main_time (snd (@main D1 ok argv)) = main_time (snd (@main D2 ok argv))
  /\ erase_core (top (snd (@main D1 ok argv)))
     = erase_core (top (snd (@main D2 ok argv)))
  /\ map erase_event (log (snd (@main D1 ok argv)))
     = map erase_event (log (snd (@main D2 ok argv))).
Proof.
  destruct (@main_same_stimulus D1 ok argv) as (T1 & M1 & L1).
  destruct (@main_same_stimulus D2 ok argv) as (T2 & M2 & L2).
  split; [reflexivity | split; [|split]]; congruence.
Qed.

(** * Runs on the 8-bit counter *)

(** [reset] with three cycles, from the start of the process: 2 + 2 * 3
    snapshots. *)
Lemma C2_reset_sequence_witness :
  0 <= 3
  /\ Z.of_nat (count is_dump (log (reset vcd 3 (@process_start counter8))))
     = 0 + 2 + 2 * 3.
Proof.
  split; [lia|].
  destruct (C2_reset_sequence 3 (@process_start counter8) ltac:(lia))
    as (mid & _ & _ & _ & _ & _ & _ & _ & _ & _ & _ & Hd & _).
  exact Hd.
Defined.

(** The entry of [wraparound] is in the table, and [main] runs it. *)
Lemma C5_scenario_scripts_witness :
  In ("wraparound"%string,
      [ResetFor 1; SetInput port_en 1; TickTimes 254; TickTimes 4;
       SetInput port_en 0; TickTimes 4]) spec_table
  /\ forall s : @Sim counter8,
       main_dispatch "wraparound" s
       = spec_run vcd
           [ResetFor 1; SetInput port_en 1; TickTimes 254; TickTimes 4;
            SetInput port_en 0; TickTimes 4] s.
Proof.
  assert (Hin : In ("wraparound"%string,
                    [ResetFor 1; SetInput port_en 1; TickTimes 254;
                     TickTimes 4; SetInput port_en 0; TickTimes 4])
                   spec_table)
    by (cbv [spec_table]; cbn [In]; tauto).
  split; [exact Hin|].
  exact (proj1 (C5_scenario_scripts (D := counter8) _ _ true
                  "sim"%string ["waves.vcd"%string] Hin)).
Defined.

(** A name that differs from a built-in one by the case of two letters is
    unknown: the diagnostic names it, one snapshot, exit status 0. *)
Lemma C6_unknown_scenario_witness :
  ~ In (test_of_argv ["sim"; "Basic_Counting"]%string) builtin_names
  /\ fst (@main counter8 true ["sim"; "Basic_Counting"]%string) = 0
  /\ nth_error
       (log (snd (@main counter8 true ["sim"; "Basic_Counting"]%string))) 7
     = Some (Cerr ("Unknown test: Basic_Counting"
                   ++ String (ascii_of_nat 10) EmptyString)%string)
  /\ count is_dump
       (log (snd (@main counter8 true ["sim"; "Basic_Counting"]%string)))
     = 1%nat.
Proof.
  assert (Hun : ~ In (test_of_argv ["sim"; "Basic_Counting"]%string)
                     builtin_names).
  { vm_compute. intros [H|[H|[H|[H|[H|[H|[]]]]]]]; discriminate H. }
  split; [exact Hun|].
  rewrite (proj1 (proj2 (C6_unknown_scenario (D := counter8) true
                           ["sim"; "Basic_Counting"]%string Hun))).
  repeat split; reflexivity.
Defined.

(** After [reset(2)] and three ticks the recorder has 12 snapshots and
    [main_time] is 12. *)
Lemma C8_time_follows_snapshots_witness :
  main_time (@process_start counter8)
  = Z.of_nat (count is_dump (log (@process_start counter8)))
  /\ Z.of_nat (count is_dump
                 (log (spec_run vcd [ResetFor 2; TickTimes 3]
                                (@process_start counter8))))
     < vluint64_modulus
  /\ main_time (spec_run vcd [ResetFor 2; TickTimes 3]
                         (@process_start counter8)) = 12.
Proof.
  assert (H1 : main_time (@process_start counter8)
               = Z.of_nat (count is_dump (log (@process_start counter8))))
    by reflexivity.
  assert (H2 : Z.of_nat (count is_dump
                           (log (spec_run vcd [ResetFor 2; TickTimes 3]
                                          (@process_start counter8))))
               < vluint64_modulus)
    by (vm_compute; reflexivity).
  split; [exact H1 | split; [exact H2 |]].
  rewrite (proj1 (C8_time_follows_snapshots vcd [ResetFor 2; TickTimes 3]
                    (@process_start counter8) H1 H2)).
  vm_compute. reflexivity.
Defined.

(** [basic_counting] with a file that cannot be opened: the script of the
    table runs from the state after the "Init" line, with its 26 ticks. *)
Lemma C7_open_result_ignored_witness :
  In (test_of_argv ["sim"; "basic_counting"; "/no/such/dir/waves.vcd"]%string,
      [ResetFor 1; SetInput port_en 1; TickTimes 20;
       SetInput port_en 0; TickTimes 5]) spec_table
  /\ exists script : list (@Event counter8),
       count is_call_tick script = 26%nat
       /\ count is_dump script = 54%nat
       /\ fst (@main counter8 false
                 ["sim"; "basic_counting"; "/no/such/dir/waves.vcd"]%string)
          = 0.
Proof.
  assert (Hin : In (test_of_argv
                      ["sim"; "basic_counting"; "/no/such/dir/waves.vcd"]%string,
                    [ResetFor 1; SetInput port_en 1; TickTimes 20;
                     SetInput port_en 0; TickTimes 5]) spec_table)
    by (left; reflexivity).
  split; [exact Hin|].
  destruct (C7_open_result_ignored (D := counter8)
              ["sim"; "basic_counting"; "/no/such/dir/waves.vcd"]%string)
    as (script & ft & fm & Hmain & Hscript & _).
  exists script.
  destruct (Hscript _ false Hin) as (_ & Ht & _ & _ & Hd).
  destruct (Hmain false) as (_ & Hm).
  split; [exact Ht | split; [exact Hd | now rewrite Hm]].
Defined.

(** With a file that cannot be opened, [basic_counting] still runs its 26
    ticks and 55 snapshots and [main] returns 0. *)
Lemma C7_open_failure_not_fatal :
  fst (@main counter8 false
         ["sim"; "basic_counting"; "/no/such/dir/waves.vcd"]%string) = 0
  /\ nth_error
       (log (snd (@main counter8 false
                    ["sim"; "basic_counting"; "/no/such/dir/waves.vcd"]%string)))
       1
     = Some (Open "/no/such/dir/waves.vcd" false)
  /\ count is_call_tick
       (log (snd (@main counter8 false
                    ["sim"; "basic_counting"; "/no/such/dir/waves.vcd"]%string)))
     = 26%nat
  /\ count is_dump
       (log (snd (@main counter8 false
                    ["sim"; "basic_counting"; "/no/such/dir/waves.vcd"]%string)))
     = 55%nat.
Proof. vm_compute. repeat split; reflexivity. Qed.

(** ** The counter under the built-in scenarios *)

Example basic_counting_ends_at_20 :
  last_count (log (snd (@main counter8 true ["sim"; "basic_counting"]%string)))
  = Some 20.
Proof. vm_compute. reflexivity. Qed.

Example wraparound_ends_at_2 :
  last_count (log (snd (@main counter8 true ["sim"; "wraparound"]%string)))
  = Some 2.
Proof. vm_compute. reflexivity. Qed.

Example builtin_names_are_six :
  builtin_names
  = ["basic_counting"; "hold_when_disabled"; "reset_behavior";
     "rst_over_en_priority"; "wraparound"; "mid_stream_reset"]%string.
Proof. reflexivity. Qed.

Example no_argument_is_basic_counting :
  test_of_argv ["sim"%string] = "basic_counting"%string
  /\ vcd_path_of_argv ["sim"%string] = "waves.vcd"%string.
Proof. split; reflexivity. Qed.

Example mid_stream_reset_snapshots :
  count is_dump
    (log (snd (@main counter8 true ["sim"; "mid_stream_reset"]%string)))
  = 39%nat.
Proof. vm_compute. reflexivity. Qed.

(** ** More runs *)

(** An unknown scenario still writes [clk = 0] on the "Init" line. *)
Lemma run_drives_only_bits_witness :
  (In (SetClk 0) (log (snd (@main counter8 true ["sim"; "nope"]%string)))
   \/ In (SetRst 0) (log (snd (@main counter8 true ["sim"; "nope"]%string)))
   \/ In (SetEn 0) (log (snd (@main counter8 true ["sim"; "nope"]%string))))
  /\ (0 = 0 \/ 0 = 1).
Proof.
  assert (H : In (SetClk 0)
                 (log (snd (@main counter8 true ["sim"; "nope"]%string)))
              \/ In (SetRst 0)
                    (log (snd (@main counter8 true ["sim"; "nope"]%string)))
              \/ In (SetEn 0)
                    (log (snd (@main counter8 true ["sim"; "nope"]%string)))).
  { left. apply (nth_error_In _ 2). reflexivity. }
  split; [exact H|].
  exact (run_drives_only_bits (D := counter8) true
           ["sim"; "nope"]%string 0 H).
Defined.

(** [reset] with [cycles = -3]: no tick. *)
Lemma reset_nonpositive_cycles_witness :
  -3 <= 0
  /\ count is_call_tick (log (reset vcd (-3) (@process_start counter8))) = O.
Proof.
  assert (H : -3 <= 0) by lia.
  split; [exact H|].
  rewrite (reset_nonpositive_cycles (D := counter8) (-3) process_start H).
  reflexivity.
Defined.

(** The program name alone. *)
Lemma main_default_arguments_witness :
  (List.length ["sim"%string] <= 1)%nat
  /\ @main counter8 true ["sim"%string]
     = @main counter8 true ["sim"; "basic_counting"; "waves.vcd"]%string.
Proof.
  assert (H : (List.length ["sim"%string] <= 1)%nat) by (simpl; lia).
  split; [exact H|].
  exact (main_default_arguments (D := counter8) true ["sim"%string]
           "sim"%string H).
Defined.
